(** * integracion_limpieza_datos: a shallow embedding of the cleaning pipeline

    The script [integracion_limpieza_datos.py] loads two CSV tables, joins
    them on [cliente_id], repairs the [importe] and [nombre_cliente]
    columns, normalises [fecha_venta] and exports the result.

    Modelling conventions.
    - A cell is a [value]: the missing marker (pandas' NaN / None / NaT,
      which [isnull] does not tell apart), a number, a string or a
      timestamp.  Numbers are rationals: the rounding of IEEE doubles is
      abstracted away.
    - A row maps column names to cells ([gmap string value]); a DataFrame
      is its column index together with the ordered list of its rows.
    - The repository pins no release of pandas, and the script does not
      behave the same under all of them ([pandas]).  Before 3.0 an
      in-place fill through a column selection
      ([merged_df['importe'].fillna(..., inplace=True)]) writes through to
      the frame; from 3.0 on the selection is a temporary (copy-on-write):
      the fill is lost, and filling text into a float64 column raises
      [TypeError].
    - A column read from a CSV file has a text dtype when one of its
      values is text, and a numeric one otherwise ([text_dtype]).
    - Exceptions are a [result] monad; the three [try] blocks and the two
      [exit()] calls are the constructors of [outcome].
    - The date parser reads a column, not a cell: from 2.0 on it fixes one
      format from the first value that is not missing.  When that value
      is exactly [YYYY-MM-DD], every value of that shape is read as that
      day, under every release; what the parser makes of anything else is
      a parameter ([infer]), which sees the column too.  Timestamps carry
      no time zone.
    - Console output is not modelled. *)

From Stdlib Require Import ZArith QArith Lia Ascii String.
From stdpp Require Import base option list gmap strings.

Local Open Scope Z_scope.
#[local] Set Warnings "-clear-no-such-hyp".

(** ** Calendar dates and timestamps *)

(** A timestamp is read by its civil fields, as Python's [datetime] (of
    which pandas' [Timestamp] is a subclass) exposes them; [nanos] is the
    time of day in nanoseconds. *)
Record Timestamp : Type := mkTs { year : Z; month : Z; day : Z; nanos : Z }.

Definition is_leap (y : Z) : bool :=
  (y mod 4 =? 0) && (negb (y mod 100 =? 0) || (y mod 400 =? 0)).

Definition days_in_month (y m : Z) : Z :=
  if (m =? 2) then (if is_leap y then 29 else 28)
  else if (m =? 4) || (m =? 6) || (m =? 9) || (m =? 11) then 30
  else 31.

Definition valid_dateb (y m d : Z) : bool :=
  (1 <=? y) && (y <=? 9999) && (1 <=? m) && (m <=? 12)
  && (1 <=? d) && (d <=? days_in_month y m).

Definition nanos_per_day : Z := 86400 * 1000000000.

Definition valid_tsb (t : Timestamp) : bool :=
  valid_dateb (year t) (month t) (day t)
  && (0 <=? nanos t) && (nanos t <? nanos_per_day).

(** Timestamps compare field by field, most significant first. *)
Definition ts_compare (a b : Timestamp) : comparison :=
  match year a ?= year b with
  | Eq => match month a ?= month b with
          | Eq => match day a ?= day b with
                  | Eq => nanos a ?= nanos b
                  | c => c
                  end
          | c => c
          end
  | c => c
  end.

Definition ts_ltb (a b : Timestamp) : bool :=
  match ts_compare a b with Lt => true | _ => false end.
Definition ts_gtb (a b : Timestamp) : bool := ts_ltb b a.
Definition ts_leb (a b : Timestamp) : bool := negb (ts_ltb b a).
Definition ts_geb (a b : Timestamp) : bool := negb (ts_ltb a b).

(** The calendar day of a timestamp: what [%Y-%m-%d] prints. *)
Definition midnight (t : Timestamp) : Timestamp :=
  mkTs (year t) (month t) (day t) 0.

(** ** Decimal digits and the [%Y-%m-%d] format *)

Definition digit_char (n : Z) : ascii := ascii_of_N (Z.to_N (48 + n)).

Definition digit_val (c : ascii) : option Z :=
  let n := Z.of_N (N_of_ascii c) in
  if (48 <=? n) && (n <=? 57) then Some (n - 48) else None.

Definition pad2 (n : Z) : string :=
  String (digit_char (n / 10 mod 10)) (String (digit_char (n mod 10)) EmptyString).

Definition pad4 (n : Z) : string :=
  String (digit_char (n / 1000 mod 10))
    (String (digit_char (n / 100 mod 10)) (pad2 n)).

Definition dash : ascii := ascii_of_N 45.

(** [ts.strftime('%Y-%m-%d')] *)
Definition strftime (t : Timestamp) : string :=
  pad4 (year t) +:+ String dash (pad2 (month t) +:+ String dash (pad2 (day t))).

Definition num2 (a b : ascii) : option Z :=
  x ← digit_val a; y ← digit_val b; Some (10 * x + y).

Definition num4 (a b c d : ascii) : option Z :=
  x ← num2 a b; y ← num2 c d; Some (100 * x + y).

(** The ISO fast path of the date parser: exactly [YYYY-MM-DD], a real
    calendar day, read as that day at 00:00. *)
Definition parse_iso (s : string) : option Timestamp :=
  match s with
  | String y1 (String y2 (String y3 (String y4 (String s1
      (String m1 (String m2 (String s2 (String d1 (String d2 EmptyString))))))))) =>
      if Ascii.eqb s1 dash && Ascii.eqb s2 dash then
        y ← num4 y1 y2 y3 y4;
        m ← num2 m1 m2;
        d ← num2 d1 d2;
        if valid_dateb y m d then Some (mkTs y m d 0) else None
      else None
  | _ => None
  end.

(** ** Cells, rows and frames *)

(** [NaN] is the missing marker: NaN in a numeric column, None in a text
    column, NaT in a datetime column. *)
Inductive value : Type :=
  | NaN
  | Num (q : Q)
  | Str (s : string)
  | Ts (t : Timestamp).

Abbreviation row := (gmap string value).

Record DataFrame : Type := mkDF { columns : list string; rows : list row }.

Definition with_rows (df : DataFrame) (rs : list row) : DataFrame :=
  mkDF (columns df) rs.

Definition isnull (v : value) : bool :=
  match v with NaN => true | _ => false end.

Definition cell (c : string) (r : row) : value := default NaN (r !! c).

(** [df[c]] *)
Definition series (c : string) (df : DataFrame) : list value :=
  cell c <$> rows df.

(** [df[c] = s] *)
Definition set_column (c : string) (s : list value) (df : DataFrame) : DataFrame :=
  with_rows df (zip_with (λ (r : row) v, <[c:=v]> r) (rows df) s).

(** ** Exceptions *)

Inductive exn : Type :=
  | KeyError (c : string)
  | ValueError
  | TypeError
  | OSError.

Inductive result (A : Type) : Type :=
  | Ok (a : A)
  | Raise (e : exn).
Arguments Ok {A} a.
Arguments Raise {A} e.

Definition bind {A B : Type} (m : result A) (k : A → result B) : result B :=
  match m with
  | Ok a => k a
  | Raise e => Raise e
  end.

Notation "'do' x <- m ; k" := (bind m (λ x, k))
  (at level 10, x name, m at level 100, k at level 200).

(** ** Series operations *)

(** [v < 0] on one cell.  A missing value compares false; ordering a
    string or a timestamp against the integer 0 raises [TypeError]. *)
Definition lt0 (v : value) : result bool :=
  match v with
  | NaN => Ok false
  | Num q => Ok (match (q ?= 0)%Q with Lt => true | _ => false end)
  | Str _ | Ts _ => Raise TypeError
  end.

(** [s < 0] *)
Fixpoint lt0_series (s : list value) : result (list bool) :=
  match s with
  | [] => Ok []
  | v :: s' => do b <- lt0 v; do bs <- lt0_series s'; Ok (b :: bs)
  end.

(** [mask.sum()] *)
Definition count_true (mask : list bool) : nat :=
  length (filter (λ b : bool, b = true) mask).

(** [df.loc[mask, c] = v] *)
Definition loc_set (mask : list bool) (c : string) (v : value) (rs : list row) : list row :=
  zip_with (λ (b : bool) (r : row), if b then <[c:=v]> r else r) mask rs.

(** [df[mask]] *)
Fixpoint select (mask : list bool) (rs : list row) : list row :=
  match mask, rs with
  | b :: mask', r :: rs' => if b then r :: select mask' rs' else select mask' rs'
  | _, _ => []
  end.

(** [s.isnull().any()] *)
Definition any_null (s : list value) : bool := existsb isnull s.

Definition nums (s : list value) : list Q :=
  omap (λ v, match v with Num q => Some q | _ => None end) s.

Definition Qsum (l : list Q) : Q := foldr Qplus 0%Q l.

(** [s.mean()]: missing values are skipped; with nothing left the mean
    is NaN. *)
Definition mean (s : list value) : value :=
  match nums s with
  | [] => NaN
  | xs => Num (Qsum xs / inject_Z (Z.of_nat (length xs)))
  end.

(** [s.fillna(v)] on the column [c]: a missing cell takes [v]; filling
    with NaN leaves it missing. *)
Definition fillna (c : string) (v : value) (rs : list row) : list row :=
  (λ r : row, if isnull (cell c r) then <[c:=v]> r else r) <$> rs.

(** The releases of pandas, as far as the script can tell them apart:
    those before 3.0, and 3.0 with its successors. *)
Inductive pandas : Type :=
  | Pandas2
  | Pandas3.

(** [df[c].fillna(v, inplace=True)], as the frame [df] sees it.  Before
    3.0 the selection [df[c]] shares the frame's data and the fill lands
    in the frame.  From 3.0 on it is a temporary: the temporary is
    filled and dropped, the frame keeps its cells. *)
Definition fillna_inplace (pd : pandas) (c : string) (v : value) (rs : list row) : list row :=
  match pd with
  | Pandas2 => fillna c v rs
  | Pandas3 => rs
  end.

(** The dtype [pd.read_csv] gives a column: text (object, or str from 3.0
    on) when some value is text, numeric otherwise; a column with no
    value at all is float64. *)
Definition is_text (v : value) : bool :=
  match v with Str _ => true | _ => false end.

Definition text_dtype (s : list value) : bool := existsb is_text s.

(** [df.dropna(subset=[c], inplace=True)] *)
Definition dropna (c : string) (rs : list row) : list row :=
  filter (λ r, isnull (cell c r) = false) rs.

(** ** The join: [pd.merge(ventas_df, clientes_df, on=k, how='inner')] *)

Definition ts_eqb (a b : Timestamp) : bool :=
  match ts_compare a b with Eq => true | _ => false end.

(** Key comparison.  Numbers match by value; as pandas documents, two
    missing keys match each other. *)
Definition value_eqb (a b : value) : bool :=
  match a, b with
  | NaN, NaN => true
  | Num p, Num q => Qeq_bool p q
  | Str s, Str t => String.eqb s t
  | Ts t, Ts u => ts_eqb t u
  | _, _ => false
  end.

Definition key_match (k : string) (s c : row) : bool :=
  value_eqb (cell k s) (cell k c).

(** A column other than the key that both frames have gets the suffixes
    [_x] (left) and [_y] (right). *)
Definition left_name (k : string) (R : DataFrame) (n : string) : string :=
  if decide (n ≠ k ∧ n ∈ columns R) then n +:+ "_x" else n.

Definition right_name (L : DataFrame) (n : string) : string :=
  if decide (n ∈ columns L) then n +:+ "_y" else n.

Definition right_columns (k : string) (R : DataFrame) : list string :=
  filter (λ n, n ≠ k) (columns R).

Definition merged_columns (k : string) (L R : DataFrame) : list string :=
  (left_name k R <$> columns L) ++ (right_name L <$> right_columns k R).

Definition join_row (k : string) (L R : DataFrame) (s c : row) : row :=
  list_to_map ((λ n, (left_name k R n, cell n s)) <$> columns L)
  ∪ list_to_map ((λ n, (right_name L n, cell n c)) <$> right_columns k R).

(** Rows come out in the order of the left frame, and within one left
    row in the order of the right frame. *)
Definition merge_rows (k : string) (L R : DataFrame) : list row :=
  s ← rows L; join_row k L R s <$> filter (λ c, key_match k s c = true) (rows R).

(** The check of the key dtypes: a numeric key does not merge with a
    text key.  It is skipped when one frame has no row. *)
Definition keys_comparable (k : string) (L R : DataFrame) : bool :=
  match rows L, rows R with
  | [], _ | _, [] => true
  | _, _ => eqb (text_dtype (series k L)) (text_dtype (series k R))
  end.

Definition merge (L R : DataFrame) (k : string) : result DataFrame :=
  if decide (k ∈ columns L ∧ k ∈ columns R) then
    if keys_comparable k L R
    then Ok (mkDF (merged_columns k L R) (merge_rows k L R))
    else Raise ValueError
  else Raise (KeyError k).

(** The positions, counted from [j], of the right rows that match [s]. *)
Fixpoint matches_from (k : string) (s : row) (j : nat) (R : list row) : list nat :=
  match R with
  | [] => []
  | c :: R' =>
      if key_match k s c
      then j :: matches_from k s (S j) R'
      else matches_from k s (S j) R'
  end.

Fixpoint merge_index_from (k : string) (i : nat) (L R : list row) : list (nat * nat) :=
  match L with
  | [] => []
  | s :: L' => (pair i <$> matches_from k s 0 R) ++ merge_index_from k (S i) L' R
  end.

(** The index pairs (sale, customer) behind the joined rows, in order. *)
Definition merge_index (k : string) (L R : list row) : list (nat * nat) :=
  merge_index_from k 0 L R.

(** ** Quality repair *)

(** Lines 46 to 61: negative amounts become 0, then the mean of the
    column as it stands is computed and the missing amounts are filled
    with it, in place through the selection [merged_df['importe']]. *)
Definition repair_importe (pd : pandas) (df : DataFrame) : result DataFrame :=
  if decide ("importe" ∈ columns df) then
    do neg <- lt0_series (series "importe" df);
    let initial_negative_importes := count_true neg in
    do df1 <-
      (if (0 <? initial_negative_importes)%nat then
         do mask <- lt0_series (series "importe" df);
         Ok (with_rows df (loc_set mask "importe" (Num 0) (rows df)))
       else Ok df);
    if any_null (series "importe" df1) then
      let mean_importe := mean (series "importe" df1) in
      Ok (with_rows df1 (fillna_inplace pd "importe" mean_importe (rows df1)))
    else Ok df1
  else Ok df.

(** Lines 66 to 69.  [names_text] is the dtype of the name column, which
    the joined frame inherits from the file the column was read from.
    From 3.0 on a float64 column does not take the text ['Desconocido']:
    the fill raises [TypeError], which nothing catches. *)
Definition fill_nombre (pd : pandas) (names_text : bool) (df : DataFrame) : result DataFrame :=
  if bool_decide ("nombre_cliente" ∈ columns df)
     && any_null (series "nombre_cliente" df)
  then
    match pd, names_text with
    | Pandas3, false => Raise TypeError
    | _, _ =>
        Ok (with_rows df
              (fillna_inplace pd "nombre_cliente" (Str "Desconocido") (rows df)))
    end
  else Ok df.

Definition quality_repair (pd : pandas) (names_text : bool) (df : DataFrame) : result DataFrame :=
  do df1 <- repair_importe pd df; fill_nombre pd names_text df1.

(** ** Date normalisation *)

(** [pd.to_datetime('2000-01-01')] *)
Definition min_date : Timestamp := mkTs 2000 1 1 0.

Definition lt_ts (bound : Timestamp) (v : value) : bool :=
  match v with Ts t => ts_ltb t bound | _ => false end.
Definition gt_ts (bound : Timestamp) (v : value) : bool :=
  match v with Ts t => ts_gtb t bound | _ => false end.
Definition ge_ts (bound : Timestamp) (v : value) : bool :=
  match v with Ts t => ts_geb t bound | _ => false end.
Definition le_ts (bound : Timestamp) (v : value) : bool :=
  match v with Ts t => ts_leb t bound | _ => false end.

(** [s.dt.strftime('%Y-%m-%d')] on one cell; NaT gives NaN. *)
Definition dt_strftime (v : value) : value :=
  match v with Ts t => Str (strftime t) | _ => NaN end.

Section Script.

(** The date-parsing collaborator's reading of whatever the model does
    not fix: other textual layouts, numbers, and every value of a column
    that does not start with a [YYYY-MM-DD] value.  It is given the
    column and the value.  It is external to the script and left open
    here. *)
Variable infer : list value → value → option Timestamp.

(** [errors='coerce']: what is not a real instant becomes NaT. *)
Definition coerce (o : option Timestamp) : value :=
  match o with
  | Some t => if valid_tsb t then Ts t else NaN
  | None => NaN
  end.

(** The first value of a column that is not missing: the one the parser
    guesses the format of the column from. *)
Definition first_valid (s : list value) : option value :=
  head (filter (λ v, isnull v = false) s).

Definition iso_value (v : value) : option Timestamp :=
  match v with Str x => parse_iso x | _ => None end.

(** Whether the column is read in the format [%Y-%m-%d]. *)
Definition iso_column (s : list value) : bool :=
  match first_valid s with
  | Some v => bool_decide (is_Some (iso_value v))
  | None => false
  end.

(** What the parser makes of the value [v] of the column [s]. *)
Definition parse_value (s : list value) (v : value) : value :=
  match v with
  | NaN => NaN
  | Ts t => coerce (Some t)
  | _ =>
      if iso_column s then
        match iso_value v with
        | Some t => Ts t
        | None => coerce (infer s v)
        end
      else coerce (infer s v)
  end.

(** [pd.to_datetime(s, errors='coerce')] *)
Definition to_datetime (s : list value) : list value := parse_value s <$> s.

(** Lines 73 to 105.  [today] is [pd.to_datetime('today')], the instant
    the script runs at. *)
Definition normalize_fecha (today : Timestamp) (df : DataFrame) : DataFrame :=
  if decide ("fecha_venta" ∈ columns df) then
    let df1 := set_column "fecha_venta" (to_datetime (series "fecha_venta" df)) df in
    let df2 :=
      if any_null (series "fecha_venta" df1)
      then with_rows df1 (dropna "fecha_venta" (rows df1))
      else df1 in
    let max_date := today in
    let out_of_range_dates_count :=
      length (select (zip_with orb (lt_ts min_date <$> series "fecha_venta" df2)
                                   (gt_ts max_date <$> series "fecha_venta" df2))
                     (rows df2)) in
    let df3 :=
      if (0 <? out_of_range_dates_count)%nat
      then with_rows df2
             (select (zip_with andb (ge_ts min_date <$> series "fecha_venta" df2)
                                    (le_ts max_date <$> series "fecha_venta" df2))
                     (rows df2))
      else df2 in
    set_column "fecha_venta" (dt_strftime <$> series "fecha_venta" df3) df3
  else df.

(** Lines 46 to 105: the three stages on the joined frame. *)
Definition clean (pd : pandas) (names_text : bool) (today : Timestamp) (df : DataFrame) :
    result DataFrame :=
  do df1 <- repair_importe pd df;
  do df2 <- fill_nombre pd names_text df1;
  Ok (normalize_fecha today df2).

(** ** The whole script *)

(** What [pd.read_csv] finds: a table, no such file, or some other
    failure (a directory, no permission, undecodable bytes). *)
Inductive source : Type :=
  | Loaded (df : DataFrame)
  | FileNotFound
  | Unreadable.

Record world : Type := mkWorld {
  lib : pandas;           (* the release of pandas the script runs on *)
  ventas_csv : source;
  clientes_csv : source;
  now : Timestamp;
  writable : bool         (* whether [to_csv] succeeds *)
}.

(** The dtype of the joined frame's [nombre_cliente]: that of the input
    column it is taken from.  (When both inputs have the column the
    joined frame has none of that name.) *)
Definition joined_names_text (ventas_df clientes_df : DataFrame) : bool :=
  text_dtype (series "nombre_cliente" ventas_df)
  || text_dtype (series "nombre_cliente" clientes_df).

Inductive outcome : Type :=
  | ExitNoInput               (* line 12 *)
  | ExitMerge (e : exn)       (* line 30 *)
  | Traceback (e : exn)       (* an exception no [try] catches *)
  | ExportError               (* line 124 *)
  | Exported (df : DataFrame) (* line 122: dataset_integrado.csv written *).

Definition script (w : world) : outcome :=
  match ventas_csv w with
  | FileNotFound => ExitNoInput
  | Unreadable => Traceback OSError
  | Loaded ventas_df =>
      match clientes_csv w with
      | FileNotFound => ExitNoInput
      | Unreadable => Traceback OSError
      | Loaded clientes_df =>
          match merge ventas_df clientes_df "cliente_id" with
          | Raise e => ExitMerge e
          | Ok merged_df =>
              match clean (lib w) (joined_names_text ventas_df clientes_df) (now w) merged_df with
              | Raise e => Traceback e
              | Ok cleaned =>
                  if writable w then Exported cleaned else ExportError
              end
          end
      end
  end.

(** ** The Date Normalizer as the specification words it

    Parse; drop what is unparsable; drop what is strictly before
    [min_date] or strictly after [max_date]; print the rest. *)

Definition parsed (s : list value) (r : row) : value :=
  parse_value s (cell "fecha_venta" r).

Definition survives (max_date : Timestamp) (v : value) : bool :=
  match v with
  | Ts t => negb (ts_ltb t min_date) && negb (ts_gtb t max_date)
  | _ => false
  end.

Definition spec_normalize (max_date : Timestamp) (rs : list row) : list row :=
  let s := cell "fecha_venta" <$> rs in
  (λ r, <["fecha_venta" := dt_strftime (parsed s r)]> r)
    <$> filter (λ r, survives max_date (parsed s r) = true) rs.

End Script.

(** ** The Quality Repairer as the specification words it *)

(** A cell an amount column may hold: a number or the missing marker. *)
Definition numericb (v : value) : bool :=
  match v with NaN | Num _ => true | _ => false end.

Definition negative (v : value) : bool :=
  match v with
  | Num q => match (q ?= 0)%Q with Lt => true | _ => false end
  | _ => false
  end.

(** "every row where amount < 0 is overwritten with 0" *)
Definition neg_correct (v : value) : value :=
  if negative v then Num 0 else v.

(** The arithmetic mean of a list of numbers; there is none for the
    empty list. *)
Definition arith_mean (xs : list Q) : option Q :=
  match xs with
  | [] => None
  | _ => Some (Qsum xs / inject_Z (Z.of_nat (length xs)))%Q
  end.

(** "every remaining row where amount is missing is overwritten with
    the mean" *)
Definition impute (m : option Q) (v : value) : value :=
  match v, m with
  | NaN, Some q => Num q
  | _, _ => v
  end.

Definition spec_amounts (s : list value) : list value :=
  let corrected := neg_correct <$> s in
  impute (arith_mean (nums corrected)) <$> corrected.

(** "every row where customer name is missing is overwritten with the
    literal sentinel string" *)
Definition name_fill (v : value) : value :=
  if isnull v then Str "Desconocido" else v.

(** What the frame holds of a cell after an in-place fill [fill] through
    a column selection: the filled cell before pandas 3.0, the cell as it
    was from 3.0 on. *)
Definition stored (pd : pandas) (fill : value → value) (v : value) : value :=
  match pd with
  | Pandas2 => fill v
  | Pandas3 => v
  end.

(** [r'] is [r] with [f] applied to the cell of column [c] and every
    other column as it was. *)
Definition updates (c : string) (f : value → value) (r r' : row) : Prop :=
  cell c r' = f (cell c r) ∧ ∀ c', c' ≠ c → r' !! c' = r !! c'.

(** The amount column, when the table has one, holds numbers and
    missing values only. *)
Definition amounts_numeric (df : DataFrame) : Prop :=
  "importe" ∈ columns df → forallb numericb (series "importe" df) = true.

(** The name stage returns: from 3.0 on, a name column with a missing
    value must have a text dtype. *)
Definition names_fillable (pd : pandas) (names_text : bool) (df : DataFrame) : bool :=
  match pd with
  | Pandas2 => true
  | Pandas3 =>
      names_text
      || negb (bool_decide ("nombre_cliente" ∈ columns df)
               && any_null (series "nombre_cliente" df))
  end.

(** ** Fatal conditions as the specification lists them *)

Definition loaded (s : source) : Prop := ∃ df, s = Loaded df.

Definition join_key_absent (w : world) : Prop :=
  ∃ ventas_df clientes_df,
    ventas_csv w = Loaded ventas_df ∧ clientes_csv w = Loaded clientes_df
    ∧ ¬ ("cliente_id" ∈ columns ventas_df ∧ "cliente_id" ∈ columns clientes_df).


(** The joined table has an amount column that holds something other
    than numbers and missing values. *)
Definition amounts_not_numeric (w : world) : Prop :=
  ∃ ventas_df clientes_df df,
    ventas_csv w = Loaded ventas_df ∧ clientes_csv w = Loaded clientes_df
    ∧ merge ventas_df clientes_df "cliente_id" = Ok df
    ∧ "importe" ∈ columns df
    ∧ forallb numericb (series "importe" df) = false.

(** The join key is in both tables, numeric in one and text in the
    other, and both tables have rows. *)
Definition join_keys_differ (w : world) : Prop :=
  ∃ ventas_df clientes_df,
    ventas_csv w = Loaded ventas_df ∧ clientes_csv w = Loaded clientes_df
    ∧ "cliente_id" ∈ columns ventas_df ∧ "cliente_id" ∈ columns clientes_df
    ∧ keys_comparable "cliente_id" ventas_df clientes_df = false.

(** From 3.0 on: the joined table has a name column with a missing
    value, and the column has no text at all. *)
Definition names_not_fillable (w : world) : Prop :=
  ∃ ventas_df clientes_df df,
    ventas_csv w = Loaded ventas_df ∧ clientes_csv w = Loaded clientes_df
    ∧ merge ventas_df clientes_df "cliente_id" = Ok df
    ∧ names_fillable (lib w) (joined_names_text ventas_df clientes_df) df = false.

(** ** Sample tables *)

Definition sale (id : Z) (importe fecha : value) : row :=
  list_to_map [("cliente_id"%string, Num (inject_Z id));
               ("importe"%string, importe); ("fecha_venta"%string, fecha)].

Definition customer (id : Z) (nombre : value) : row :=
  list_to_map [("cliente_id"%string, Num (inject_Z id));
               ("nombre_cliente"%string, nombre)].

Definition joined (id : Z) (importe fecha nombre : value) : row :=
  list_to_map [("cliente_id"%string, Num (inject_Z id));
               ("importe"%string, importe); ("fecha_venta"%string, fecha);
               ("nombre_cliente"%string, nombre)].

Definition ventas_columns : list string := ["cliente_id"; "importe"; "fecha_venta"]%string.
Definition clientes_columns : list string := ["cliente_id"; "nombre_cliente"]%string.
Definition joined_columns : list string :=
  ["cliente_id"; "importe"; "fecha_venta"; "nombre_cliente"]%string.

(** The scenario of the specification, with three more sales: one before
    2000, one in 2099, and one of a customer listed twice. *)
Definition ventas_ex : DataFrame :=
  mkDF ventas_columns
    [sale 1 (Num (-5)) (Str "2022-13-40");
     sale 2 NaN (Str "2021-05-01");
     sale 3 (Num 10) (Str "1999-01-01");
     sale 4 (Num 7) (Str "2099-01-01");
     sale 5 (Num 20) (Str "2023-07-15");
     sale 9 (Num 1) (Str "2020-02-29")].

Definition clientes_ex : DataFrame :=
  mkDF clientes_columns
    [customer 1 NaN; customer 2 (Str "Ana"); customer 3 (Str "Luis");
     customer 4 NaN; customer 5 (Str "Eva"); customer 5 NaN; customer 8 (Str "Sol")].

Definition joined_ex : DataFrame :=
  mkDF joined_columns
    [joined 1 (Num (-5)) (Str "2022-13-40") NaN;
     joined 2 NaN (Str "2021-05-01") (Str "Ana");
     joined 3 (Num 10) (Str "1999-01-01") (Str "Luis");
     joined 4 (Num 7) (Str "2099-01-01") NaN;
     joined 5 (Num 20) (Str "2023-07-15") (Str "Eva");
     joined 5 (Num 20) (Str "2023-07-15") NaN].

Definition cleaned_ex : DataFrame :=
  mkDF joined_columns
    [joined 2 (Num (57 # 5)) (Str "2021-05-01") (Str "Ana");
     joined 5 (Num 20) (Str "2023-07-15") (Str "Eva");
     joined 5 (Num 20) (Str "2023-07-15") (Str "Desconocido")].

(** A run on 3 November 2026 at 17:22. *)
Definition run_time : Timestamp := mkTs 2026 11 3 62520000000000.

(** The day after [run_time]. *)
Definition next_day : Timestamp := mkTs 2026 11 4 0.

(** A parser that reads nothing but [YYYY-MM-DD] columns. *)
Definition no_inference : list value → value → option Timestamp := λ _ _, None.

(** A parser that reads each value on its own, and of text nothing but
    [YYYY-MM-DD]: what pandas falls back to when it finds no format in
    the first value of a column. *)
Definition by_value : list value → value → option Timestamp := λ _ v, iso_value v.

Definition world_ex : world :=
  mkWorld Pandas2 (Loaded ventas_ex) (Loaded clientes_ex) run_time true.

(** The same files on another release of pandas. *)
Definition on (pd : pandas) (w : world) : world :=
  mkWorld pd (ventas_csv w) (clientes_csv w) (now w) (writable w).

(** What [world_ex] exports from 3.0 on. *)
Definition cleaned_ex3 : DataFrame :=
  mkDF joined_columns
    [joined 2 NaN (Str "2021-05-01") (Str "Ana");
     joined 5 (Num 20) (Str "2023-07-15") (Str "Eva");
     joined 5 (Num 20) (Str "2023-07-15") NaN].

(** Every amount missing. *)
Definition ventas_missing : DataFrame :=
  mkDF ventas_columns
    [sale 1 NaN (Str "2021-05-01"); sale 2 NaN (Str "2022-06-30")].

Definition joined_missing : DataFrame :=
  mkDF joined_columns
    [joined 1 NaN (Str "2021-05-01") NaN; joined 2 NaN (Str "2022-06-30") (Str "Ana")].

Definition world_missing : world :=
  mkWorld Pandas2 (Loaded ventas_missing) (Loaded clientes_ex) run_time true.

Definition exported_missing : DataFrame :=
  mkDF joined_columns
    [joined 1 NaN (Str "2021-05-01") (Str "Desconocido");
     joined 2 NaN (Str "2022-06-30") (Str "Ana")].



(** Customer identifiers that are text, against numeric ones in the
    sales. *)
Definition clientes_codes : DataFrame :=
  mkDF clientes_columns
    [list_to_map [("cliente_id"%string, Str "C1"); ("nombre_cliente"%string, Str "Ana")]].

Definition world_codes : world :=
  mkWorld Pandas2 (Loaded ventas_ex) (Loaded clientes_codes) run_time true.

(** A sale and a customer without identifier. *)
Definition ventas_anon : DataFrame :=
  mkDF ventas_columns
    [list_to_map [("cliente_id"%string, NaN); ("importe"%string, Num 3);
                  ("fecha_venta"%string, Str "2021-05-01")]].

Definition clientes_anon : DataFrame :=
  mkDF clientes_columns
    [list_to_map [("cliente_id"%string, NaN); ("nombre_cliente"%string, Str "Ana")]].

(** No customer has a name: the column is float64. *)
Definition clientes_unnamed : DataFrame :=
  mkDF clientes_columns [customer 1 NaN; customer 2 NaN].

Definition world_unnamed : world :=
  mkWorld Pandas3 (Loaded ventas_missing) (Loaded clientes_unnamed) run_time true.

(** A sale stamped at 18:00 of the day of [run_time], and a parser that
    reads the stamp. *)
Definition evening : Timestamp := mkTs 2026 11 3 64800000000000.

Definition joined_evening : DataFrame :=
  mkDF joined_columns [joined 2 (Num 12) (Str "2026-11-03 18:00:00") (Str "Ana")].

Definition clock_inference : list value → value → option Timestamp :=
  λ _ v, match v with
         | Str "2026-11-03 18:00:00" => Some evening
         | _ => None
         end.

(** A column that starts in the layout day/month/year, and the parser of
    the releases from 2.0 on, which reads the whole column in the layout
    of its first value. *)
Definition joined_layouts : DataFrame :=
  mkDF joined_columns
    [joined 2 (Num 12) (Str "01/05/2021") (Str "Ana");
     joined 3 (Num 10) (Str "2021-05-02") (Str "Luis")].

Definition one_layout : list value → value → option Timestamp :=
  λ _ v, match v with
         | Str "01/05/2021" => Some (mkTs 2021 5 1 0)
         | _ => None
         end.

(** ** Reporting and whole-table notions *)

(** [s.isnull().sum()] *)
Definition null_count (s : list value) : nat := count_true (isnull <$> s).

(** [merged_df.isnull().sum()], lines 35 and 109: the number of missing
    cells of each column. *)
Definition null_counts (df : DataFrame) : list (string * nat) :=
  (λ c, (c, null_count (series c df))) <$> columns df.

Section Reporting.

Variable infer : list value → value → option Timestamp.

(** The frame after line 78. *)
Definition parsed_frame (df : DataFrame) : DataFrame :=
  set_column "fecha_venta" (to_datetime infer (series "fecha_venta" df)) df.

(** Line 82, as counted on the frame of line 78 (the script reports it
    only when it is not 0). *)
Definition invalid_dates_count (df : DataFrame) : nat :=
  null_count (series "fecha_venta" (parsed_frame df)).

(** The frame after lines 81 to 86. *)
Definition valid_frame (df : DataFrame) : DataFrame :=
  let df1 := parsed_frame df in
  if any_null (series "fecha_venta" df1)
  then with_rows df1 (dropna "fecha_venta" (rows df1))
  else df1.

(** Line 95. *)
Definition out_of_range_dates_count (today : Timestamp) (df : DataFrame) : nat :=
  let df2 := valid_frame df in
  length (select (zip_with orb (lt_ts min_date <$> series "fecha_venta" df2)
                               (gt_ts today <$> series "fecha_venta" df2))
                 (rows df2)).

End Reporting.

(** Line 51. *)
Definition initial_negative_importes (df : DataFrame) : result nat :=
  do neg <- lt0_series (series "importe" df); Ok (count_true neg).

(** A row without the three columns the cleaning works on. *)
Definition untouched (r : row) : row :=
  delete "importe" (delete "nombre_cliente" (delete "fecha_venta" r)).

(** Every row has a cell for each column of the table and no other. *)
Definition rectangular (df : DataFrame) : Prop :=
  ∀ r, r ∈ rows df → ∀ c, is_Some (r !! c) ↔ c ∈ columns df.

(** Amounts the amount stage has nothing left to do on: before pandas
    3.0 all present and at least 0, or all missing; from 3.0 on each of
    them missing or at least 0. *)
Definition amounts_settled (pd : pandas) (rs : list row) : Prop :=
  match pd with
  | Pandas2 =>
      (∀ r, r ∈ rs → ∃ q, cell "importe" r = Num q ∧ (0 <= q)%Q)
      ∨ (∀ r, r ∈ rs → r !! "importe" = Some NaN)
  | Pandas3 =>
      ∀ r, r ∈ rs → cell "importe" r = NaN ∨ ∃ q, cell "importe" r = Num q ∧ (0 <= q)%Q
  end.

(** [r'] is [r], or [r] with the cell of column [c] overwritten. *)
Definition sets (c : string) (r r' : row) : Prop :=
  r' = r ∨ ∃ v, r' = <[c:=v]> r.

(** The customer identifiers of a table are pairwise different. *)
Definition unique_keys (k : string) (rs : list row) : Prop :=
  ∀ i j c d, rs !! i = Some c → rs !! j = Some d →
             value_eqb (cell k c) (cell k d) = true → i = j.

(** * Properties *)

(** ** Digits and the canonical date format *)

Lemma digit_val_inv c v :
  digit_val c = Some v → 0 ≤ v ≤ 9 ∧ digit_char v = c.
Proof.
  unfold digit_val, digit_char.
  destruct (_ && _) eqn:E; [|discriminate].
  intros [= <-]. apply andb_prop in E as [?%Z.leb_le ?%Z.leb_le].
  split; [lia|].
  replace (48 + (Z.of_N (N_of_ascii c) - 48)) with (Z.of_N (N_of_ascii c)) by lia.
  by rewrite N2Z.id, ascii_N_embedding.
Qed.

Lemma digit_val_char v : 0 ≤ v ≤ 9 → digit_val (digit_char v) = Some v.
Proof.
  intros Hv.
  assert (v = 0 ∨ v = 1 ∨ v = 2 ∨ v = 3 ∨ v = 4 ∨ v = 5 ∨ v = 6 ∨ v = 7 ∨ v = 8 ∨ v = 9)
    as Hc by lia.
  repeat (destruct Hc as [->|Hc]; [reflexivity|]). by subst.
Qed.

Lemma num2_inv a b n :
  num2 a b = Some n → 0 ≤ n < 100 ∧ pad2 n = String a (String b EmptyString).
Proof.
  unfold num2. destruct (digit_val a) as [x|] eqn:Ea; [|discriminate].
  destruct (digit_val b) as [y|] eqn:Eb; [|discriminate].
  simpl. intros [= <-].
  apply digit_val_inv in Ea as [Hx <-], Eb as [Hy <-].
  split; [lia|]. unfold pad2.
  replace ((10 * x + y) / 10 mod 10) with x by (Z.div_mod_to_equations; lia).
  replace ((10 * x + y) mod 10) with y by (Z.div_mod_to_equations; lia).
  done.
Qed.

Lemma num2_pad2 n :
  0 ≤ n < 100 →
  num2 (digit_char (n / 10 mod 10)) (digit_char (n mod 10)) = Some n.
Proof.
  intros Hn. unfold num2.
  rewrite !digit_val_char by (Z.div_mod_to_equations; lia). simpl.
  f_equal. Z.div_mod_to_equations; lia.
Qed.

Lemma num4_inv a b c d n :
  num4 a b c d = Some n →
  0 ≤ n < 10000 ∧ pad4 n = String a (String b (String c (String d EmptyString))).
Proof.
  unfold num4. destruct (num2 a b) as [x|] eqn:Ea; [|discriminate].
  destruct (num2 c d) as [y|] eqn:Eb; [|discriminate].
  simpl. intros [= <-].
  apply num2_inv in Ea as [Hx Ea], Eb as [Hy Eb].
  split; [lia|]. unfold pad4.
  assert (pad2 (100 * x + y) = pad2 y) as ->.
  { unfold pad2.
    replace ((100 * x + y) / 10 mod 10) with (y / 10 mod 10)
      by (Z.div_mod_to_equations; lia).
    replace ((100 * x + y) mod 10) with (y mod 10)
      by (Z.div_mod_to_equations; lia).
    done. }
  rewrite Eb.
  replace ((100 * x + y) / 1000 mod 10) with (x / 10 mod 10)
    by (Z.div_mod_to_equations; lia).
  replace ((100 * x + y) / 100 mod 10) with (x mod 10)
    by (Z.div_mod_to_equations; lia).
  unfold pad2 in Ea. by injection Ea as -> ->.
Qed.

Lemma num4_pad4 n :
  0 ≤ n < 10000 →
  num4 (digit_char (n / 1000 mod 10)) (digit_char (n / 100 mod 10))
       (digit_char (n / 10 mod 10)) (digit_char (n mod 10)) = Some n.
Proof.
  intros Hn. unfold num4, num2.
  rewrite !digit_val_char by (Z.div_mod_to_equations; lia). simpl.
  f_equal. Z.div_mod_to_equations; lia.
Qed.

Lemma valid_dateb_bounds y m d :
  valid_dateb y m d = true → 1 ≤ y ≤ 9999 ∧ 1 ≤ m ≤ 12 ∧ 1 ≤ d ≤ 31.
Proof.
  unfold valid_dateb, days_in_month. intros H.
  repeat (apply andb_prop in H as [H ?]).
  repeat match goal with
         | H : (_ <=? _) = true |- _ => apply Z.leb_le in H
         end.
  repeat split; try lia.
  repeat match goal with
         | H : context [if ?b then _ else _] |- _ => destruct b
         end; lia.
Qed.

(** Parsing what [strftime] printed gives back the calendar day. *)
Lemma parse_iso_strftime t :
  valid_dateb (year t) (month t) (day t) = true →
  parse_iso (strftime t) = Some (midnight t).
Proof.
  intros Hv. pose proof (valid_dateb_bounds _ _ _ Hv) as (Hy & Hm & Hd).
  unfold strftime, pad4, pad2. cbv [String.append parse_iso].
  change (Ascii.eqb dash dash) with true. cbn [andb].
  rewrite num4_pad4 by lia. cbn [mbind option_bind].
  rewrite !num2_pad2 by lia. cbn [mbind option_bind].
  by rewrite Hv.
Qed.

(** Printing what [parse_iso] read gives back the string: the strings it
    accepts are exactly the canonical ones. *)
Lemma strftime_parse_iso s t :
  parse_iso s = Some t → strftime t = s ∧ valid_tsb t = true ∧ nanos t = 0.
Proof.
  unfold parse_iso.
  repeat (destruct s as [|? s]; try discriminate).
  destruct (Ascii.eqb a3 dash && Ascii.eqb a6 dash) eqn:Hd; [|discriminate].
  apply andb_prop in Hd as [->%Ascii.eqb_eq ->%Ascii.eqb_eq].
  destruct (num4 a a0 a1 a2) as [y|] eqn:Ey; [|discriminate].
  destruct (num2 a4 a5) as [m|] eqn:Em; [|discriminate].
  destruct (num2 a7 a8) as [d|] eqn:Ed; [|discriminate].
  cbn [mbind option_bind].
  destruct (valid_dateb y m d) eqn:Hv; [|discriminate].
  intros [= <-].
  apply num4_inv in Ey as [_ Ey]. apply num2_inv in Em as [_ Em], Ed as [_ Ed].
  unfold strftime, valid_tsb. cbn [year month day nanos].
  rewrite Ey, Em, Ed, Hv. done.
Qed.

(** ** The order on timestamps *)

Ltac ts_order :=
  unfold ts_geb, ts_leb, ts_gtb, ts_ltb, ts_eqb, ts_compare, midnight, min_date in *;
  cbn [year month day nanos] in *;
  repeat match goal with
         | |- context [?a ?= ?b] => destruct (Z.compare_spec a b)
         | H : context [?a ?= ?b] |- _ => destruct (Z.compare_spec a b)
         end;
  try done; try lia.

Lemma in_range_not_out (t lo hi : Timestamp) :
  ts_geb t lo && ts_leb t hi = negb (ts_ltb t lo || ts_gtb t hi).
Proof. unfold ts_geb, ts_leb, ts_gtb. by destruct (ts_ltb t lo), (ts_ltb hi t). Qed.

(** A timestamp no earlier than 2000-01-01 00:00 falls on a day no
    earlier than 2000-01-01. *)
Lemma midnight_ge_min t :
  ts_geb t min_date = true → 0 ≤ nanos t → ts_geb (midnight t) min_date = true.
Proof. intros H Hn. ts_order. Qed.

(** A timestamp no later than [hi] falls on a day no later than the day
    of [hi]. *)
Lemma midnight_le_max t hi :
  ts_leb t hi = true → ts_leb (midnight t) (midnight hi) = true.
Proof. intros H. ts_order. Qed.

Lemma midnight_le t : 0 ≤ nanos t → ts_leb (midnight t) t = true.
Proof. intros H. ts_order. Qed.

Lemma ts_leb_trans a b c : ts_leb a b = true → ts_leb b c = true → ts_leb a c = true.
Proof. intros H1 H2. ts_order. Qed.

Lemma valid_tsb_inv t :
  valid_tsb t = true →
  valid_dateb (year t) (month t) (day t) = true ∧ 0 ≤ nanos t < nanos_per_day.
Proof.
  unfold valid_tsb. intros H.
  apply andb_prop in H as [H12 H3]. apply andb_prop in H12 as [H1 H2].
  apply Z.leb_le in H2. apply Z.ltb_lt in H3. done.
Qed.

Lemma valid_tsb_midnight t : valid_tsb t = true → valid_tsb (midnight t) = true.
Proof.
  intros [H _]%valid_tsb_inv. unfold valid_tsb, midnight. cbn [year month day nanos].
  by rewrite H.
Qed.

(** ** Masks, selections and column updates as maps and filters *)

Lemma zip_with_fmap_same {A B C} (f : A → B → C) (g : A → B) (l : list A) :
  zip_with f l (g <$> l) = (λ x, f x (g x)) <$> l.
Proof. induction l as [|x l IH]; [done|]. cbn. by rewrite IH. Qed.

Lemma zip_with_fmap_both {A B C D} (f : B → C → D) (g : A → B) (h : A → C) (l : list A) :
  zip_with f (g <$> l) (h <$> l) = (λ x, f (g x) (h x)) <$> l.
Proof. induction l as [|x l IH]; [done|]. cbn. by rewrite IH. Qed.

Lemma select_fmap (p : row → bool) (rs : list row) :
  select (p <$> rs) rs = filter (λ r, p r = true) rs.
Proof.
  induction rs as [|r rs IH]; [done|]. cbn [fmap list_fmap select].
  rewrite filter_cons. destruct (p r) eqn:E.
  - rewrite decide_True by done. by f_equal.
  - rewrite decide_False by congruence. done.
Qed.

Lemma loc_set_fmap (p : row → bool) (c : string) (v : value) (rs : list row) :
  loc_set (p <$> rs) c v rs = (λ r, if p r then <[c:=v]> r else r) <$> rs.
Proof.
  unfold loc_set. induction rs as [|r rs IH]; [done|]. cbn. by rewrite IH.
Qed.

Lemma filter_fmap_comm {A B} (P : B → Prop) `{!∀ x, Decision (P x)} (g : A → B) (l : list A) :
  filter P (g <$> l) = g <$> filter (λ x, P (g x)) l.
Proof.
  induction l as [|x l IH]; [done|]. cbn [fmap list_fmap].
  rewrite !filter_cons. destruct (decide (P (g x))); cbn; by rewrite IH.
Qed.

Lemma filter_all {A} (P : A → Prop) `{!∀ x, Decision (P x)} (l : list A) :
  (∀ x, x ∈ l → P x) → filter P l = l.
Proof.
  induction l as [|x l IH]; [done|]. intros Hall. rewrite filter_cons.
  rewrite decide_True by (apply Hall; left). f_equal. apply IH. intros; apply Hall. by right.
Qed.

Lemma filter_nothing {A} (P : A → Prop) `{!∀ x, Decision (P x)} (l : list A) :
  (∀ x, x ∈ l → ¬ P x) → filter P l = [].
Proof.
  induction l as [|x l IH]; [done|]. intros Hall. rewrite filter_cons.
  rewrite decide_False by (apply Hall; left). apply IH. intros; apply Hall. by right.
Qed.

Lemma filter_none_length {A} (P : A → Prop) `{!∀ x, Decision (P x)} (l : list A) :
  length (filter P l) = 0%nat → ∀ x, x ∈ l → ¬ P x.
Proof.
  induction l as [|x l IH]; intros Hlen y Hy; [by apply elem_of_nil in Hy|].
  rewrite filter_cons in Hlen. destruct (decide (P x)); [done|].
  apply elem_of_cons in Hy as [->|Hy]; [done|]. by apply IH.
Qed.

Lemma any_null_false (s : list value) :
  any_null s = false ↔ ∀ v, v ∈ s → isnull v = false.
Proof.
  unfold any_null. induction s as [|x s IH]; cbn.
  - split; [|done]. intros _ v Hv. by apply elem_of_nil in Hv.
  - rewrite orb_false_iff, IH. split.
    + intros [Hx Hs] v [->|Hv]%elem_of_cons; auto.
    + intros H. split; [apply H; left|]. intros; apply H. by right.
Qed.

Lemma cell_insert c v (r : row) : cell c (<[c:=v]> r) = v.
Proof. unfold cell. by rewrite lookup_insert_eq. Qed.

Lemma cell_insert_ne c c' v (r : row) : c ≠ c' → cell c' (<[c:=v]> r) = cell c' r.
Proof. intros. unfold cell. by rewrite lookup_insert_ne. Qed.

Lemma series_with_rows c df rs : series c (with_rows df rs) = cell c <$> rs.
Proof. done. Qed.

(** [df[c] = f(df[c])], row by row. *)
Lemma set_column_map c (f : value → value) df :
  set_column c (f <$> series c df) df
  = with_rows df ((λ r, <[c := f (cell c r)]> r) <$> rows df).
Proof.
  unfold set_column, series. f_equal.
  rewrite <-list_fmap_compose. apply (zip_with_fmap_same (λ (r : row) v, <[c:=v]> r)).
Qed.

(** ** Date normalisation *)

Section Normalizer.

Variable infer : list value → value → option Timestamp.

Lemma coerce_cases o :
  coerce o = NaN ∨ ∃ t, coerce o = Ts t ∧ valid_tsb t = true.
Proof.
  destruct o as [t|]; cbn; [|by left].
  destruct (valid_tsb t) eqn:E; [right; eauto|by left].
Qed.

(** Whatever the column and the value, a parsed cell is NaT or a real
    instant. *)
Lemma parse_value_cases s v :
  parse_value infer s v = NaN ∨ ∃ t, parse_value infer s v = Ts t ∧ valid_tsb t = true.
Proof.
  assert (∀ v, match iso_value v with
               | Some t => Ts t
               | None => coerce (infer s v)
               end = NaN
               ∨ ∃ t, match iso_value v with
                      | Some t => Ts t
                      | None => coerce (infer s v)
                      end = Ts t ∧ valid_tsb t = true) as Hiso.
  { intros w. destruct (iso_value w) as [t|] eqn:E; [|apply coerce_cases].
    right. exists t. split; [done|].
    destruct w as [| |x|]; try done. cbn in E.
    by apply strftime_parse_iso in E as (_ & ? & _). }
  destruct v as [|q|x|t]; unfold parse_value;
    [by left| | |apply coerce_cases];
    (destruct (iso_column s); [apply Hiso|apply coerce_cases]).
Qed.

(** A column of canonical strings is read in the format [%Y-%m-%d]. *)
Lemma iso_column_canonical (s : list value) v :
  v ∈ s →
  (∀ v, v ∈ s → ∃ t, valid_tsb t = true ∧ v = Str (strftime t)) →
  iso_column s = true.
Proof.
  intros Hv Hcanon. unfold iso_column, first_valid.
  rewrite filter_all.
  2:{ intros w Hw. by destruct (Hcanon w Hw) as (t & _ & ->). }
  destruct s as [|w s]; [by apply elem_of_nil in Hv|]. cbn [head].
  destruct (Hcanon w) as (t & [Hd _]%valid_tsb_inv & ->); [left|].
  cbn. rewrite parse_iso_strftime by done. by apply bool_decide_eq_true.
Qed.

(** In such a column a canonical string parses to its own day, whatever
    the inference would have made of it. *)
Lemma parse_value_strftime s t :
  iso_column s = true → valid_tsb t = true →
  parse_value infer s (Str (strftime t)) = Ts (midnight t).
Proof.
  intros Hs [Hv _]%valid_tsb_inv. unfold parse_value. rewrite Hs. cbn.
  by rewrite parse_iso_strftime.
Qed.

Lemma survives_in_range max_date v :
  survives max_date v = ge_ts min_date v && le_ts max_date v.
Proof. destruct v; try done. Qed.

(** The guards of lines 81 and 96 only skip work that would change
    nothing: the stage is parse, filter, print. *)
Lemma normalize_fecha_rows today df :
  "fecha_venta" ∈ columns df →
  rows (normalize_fecha infer today df) = spec_normalize infer today (rows df).
Proof.
  intros Hc. unfold normalize_fecha. rewrite decide_True by done.
  unfold to_datetime.
  rewrite (set_column_map "fecha_venta" (parse_value infer (series "fecha_venta" df))).
  set (s := series "fecha_venta" df).
  set (rs1 := (λ r, <["fecha_venta" := parse_value infer s (cell "fecha_venta" r)]> r) <$> rows df).
  set (df1 := with_rows df rs1).
  (* dropna *)
  set (df2 := if any_null (series "fecha_venta" df1) then _ else _).
  assert (df2 = with_rows df (dropna "fecha_venta" rs1)) as ->.
  { subst df2. destruct (any_null _) eqn:E; [done|].
    unfold df1, with_rows. cbn [rows columns]. f_equal.
    symmetry. apply filter_all. intros r Hr.
    rewrite any_null_false in E. apply E.
    by apply (list_elem_of_fmap_2 (cell "fecha_venta")). }
  cbn zeta. rewrite !series_with_rows. cbn [rows with_rows].
  set (rs2 := dropna "fecha_venta" rs1).
  assert (∀ r, r ∈ rs2 → ∃ t, cell "fecha_venta" r = Ts t) as Hts.
  { intros r [Hnn Hr]%list_elem_of_filter.
    apply list_elem_of_fmap in Hr as (r0 & -> & _).
    rewrite cell_insert in Hnn |- *.
    destruct (parse_value_cases s (cell "fecha_venta" r0)) as [E|(t & E & _)];
      rewrite E in Hnn |- *; [done|eauto]. }
  (* the range filter *)
  rewrite <-!list_fmap_compose, !zip_with_fmap_both.
  rewrite !(select_fmap _ rs2).
  set (rs3 := if (0 <? _)%nat then _ else _).
  assert (rows rs3 = filter (λ r, survives today (cell "fecha_venta" r) = true) rs2) as Hrs3.
  { subst rs3. destruct (0 <? _)%nat eqn:E.
    - cbn [rows with_rows]. apply list_filter_iff. intros r. cbn.
      by rewrite survives_in_range.
    - apply Nat.ltb_ge in E. cbn [rows with_rows].
      symmetry. apply filter_all. intros r Hr.
      assert (length (filter (λ r, (lt_ts min_date ∘ cell "fecha_venta") r
                || (gt_ts today ∘ cell "fecha_venta") r = true) rs2) = 0%nat) as E0 by lia.
      pose proof (filter_none_length _ _ E0 r Hr) as Hout. cbn in Hout.
      destruct (Hts r Hr) as [t Ht]. rewrite Ht in Hout |- *. cbn in Hout |- *.
      by destruct (ts_ltb t min_date), (ts_gtb t today). }
  assert (columns rs3 = columns df) as Hcol.
  { subst rs3. by destruct (0 <? _)%nat. }
  rewrite (set_column_map "fecha_venta" dt_strftime). cbn [rows with_rows].
  rewrite Hrs3. unfold spec_normalize, parsed. cbn zeta. fold (series "fecha_venta" df). fold s.
  subst rs2. unfold dropna. rewrite list_filter_filter. subst rs1.
  rewrite filter_fmap_comm, <-list_fmap_compose.
  erewrite list_filter_iff; [apply list_fmap_ext|].
  - intros _ r _. cbn. by rewrite cell_insert, insert_insert_eq.
  - intros r. cbn. rewrite cell_insert. split; [tauto|].
    intros H. split; [done|]. by destruct (parse_value infer _ _).
Qed.

Lemma normalize_fecha_columns today df :
  columns (normalize_fecha infer today df) = columns df.
Proof.
  unfold normalize_fecha. destruct (decide _); [|done].
  cbn zeta. unfold set_column. cbn [columns with_rows].
  repeat match goal with |- context [if ?b then _ else _] => destruct b end; done.
Qed.

Lemma df_eq (a b : DataFrame) : columns a = columns b → rows a = rows b → a = b.
Proof. destruct a, b. cbn. by intros -> ->. Qed.

Lemma survives_inv max_date v :
  survives max_date v = true →
  ∃ t, v = Ts t ∧ ts_geb t min_date = true ∧ ts_leb t max_date = true.
Proof.
  destruct v as [| | |t]; try done. cbn. intros [H1 H2]%andb_prop.
  exists t. split; [done|]. split; [exact H1|exact H2].
Qed.

(** Every row the normaliser lets through carries the print of a real
    instant inside the closed range. *)
Lemma normalize_fecha_elem today df r' :
  "fecha_venta" ∈ columns df →
  r' ∈ rows (normalize_fecha infer today df) →
  ∃ r t, r ∈ rows df ∧ r' = <["fecha_venta" := Str (strftime t)]> r
         ∧ parsed infer (series "fecha_venta" df) r = Ts t ∧ valid_tsb t = true
         ∧ ts_geb t min_date = true ∧ ts_leb t today = true.
Proof.
  intros Hc. rewrite normalize_fecha_rows by done. unfold spec_normalize. cbn zeta.
  fold (series "fecha_venta" df).
  intros (r & -> & [Hs Hr]%list_elem_of_filter)%list_elem_of_fmap.
  apply survives_inv in Hs as (t & Ht & Hlo & Hhi).
  exists r, t. rewrite Ht. cbn. repeat split; try done.
  unfold parsed in Ht.
  destruct (parse_value_cases (series "fecha_venta" df) (cell "fecha_venta" r))
    as [E|(t' & E & Hv)];
    rewrite E in Ht; [done|]. by injection Ht as <-.
Qed.

(** C5, as amended.  The Date Normalizer keeps, in their order and
    otherwise untouched, exactly the rows whose sale date the parser
    reads, in the column it stands in, as an instant that is neither
    strictly before 2000-01-01 00:00 nor strictly after the instant of
    the run: a row is removed if and only if its date is not read,
    or is read as an instant strictly before [min_date] or strictly
    after [max_date].  Each row kept is the input row with its date
    rewritten as the print of the instant its own date was read as: the
    zero-padded ten-character [YYYY-MM-DD] text of the calendar day of
    that instant, a day that lies between 2000-01-01 and the day of the
    run, both included. *)
Theorem date_normalizer_exact today df :
  "fecha_venta" ∈ columns df →
  rows (normalize_fecha infer today df)
    = (λ r, <["fecha_venta" := dt_strftime (parsed infer (series "fecha_venta" df) r)]> r)
        <$> filter (λ r, survives today (parsed infer (series "fecha_venta" df) r) = true)
                   (rows df)
  ∧ (∀ r, survives today (parsed infer (series "fecha_venta" df) r) = false ↔
          parsed infer (series "fecha_venta" df) r = NaN
          ∨ ∃ t, parsed infer (series "fecha_venta" df) r = Ts t
                 ∧ (ts_ltb t min_date = true ∨ ts_gtb t today = true))
  ∧ (∀ r', r' ∈ rows (normalize_fecha infer today df) →
       ∃ r t, r ∈ rows df
              ∧ parsed infer (series "fecha_venta" df) r = Ts t
              ∧ r' = <["fecha_venta" := Str (strftime t)]> r
              ∧ String.length (strftime t) = 10%nat
              ∧ parse_iso (strftime t) = Some (midnight t)
              ∧ ts_leb min_date (midnight t) = true
              ∧ ts_leb (midnight t) (midnight today) = true).
Proof.
  intros Hc. split; [by apply normalize_fecha_rows|]. split.
  - intros r. unfold parsed.
    destruct (parse_value_cases (series "fecha_venta" df) (cell "fecha_venta" r))
      as [E|(t & E & _)];
      rewrite E; cbn.
    + split; [by left|done].
    + rewrite <-negb_orb, negb_false_iff, orb_true_iff. split.
      * intros H. right. by exists t.
      * intros [?|(t' & [= <-] & H)]; done.
  - intros r' Hr'.
    destruct (normalize_fecha_elem today df r' Hc Hr')
      as (r & t & Hr & -> & Hp & Hv & Hlo & Hhi).
    apply valid_tsb_inv in Hv as [Hd Hn].
    exists r, t. repeat split; try done.
    + by apply parse_iso_strftime.
    + apply midnight_ge_min in Hlo; [|lia]. clear -Hlo. ts_order.
    + by apply midnight_le_max.
Qed.

(** On rows whose dates are canonical and in range, parse, filter and
    print change nothing. *)
Lemma spec_normalize_canonical today (rs : list row) :
  (∀ r, r ∈ rs →
     ∃ t, valid_tsb t = true
          ∧ ts_geb (midnight t) min_date = true
          ∧ ts_leb (midnight t) today = true
          ∧ r !! "fecha_venta" = Some (Str (strftime t))) →
  spec_normalize infer today rs = rs.
Proof.
  intros Hcanon. unfold spec_normalize. cbn zeta.
  set (s := cell "fecha_venta" <$> rs).
  assert (∀ r, r ∈ rs → iso_column s = true) as Hiso.
  { intros r Hr. apply (iso_column_canonical s (cell "fecha_venta" r)).
    - by apply list_elem_of_fmap_2.
    - intros v (r0 & -> & Hr0)%list_elem_of_fmap.
      destruct (Hcanon r0 Hr0) as (t & Hv & _ & _ & Hcell).
      exists t. split; [done|]. unfold cell. by rewrite Hcell. }
  assert (∀ r, r ∈ rs →
            ∃ t, parsed infer s r = Ts (midnight t)
                 ∧ survives today (parsed infer s r) = true
                 ∧ r !! "fecha_venta" = Some (Str (strftime (midnight t)))) as Hp.
  { intros r Hr. destruct (Hcanon r Hr) as (t & Hv & Hlo & Hhi & Hcell).
    exists t. unfold parsed, cell. rewrite Hcell. cbn [from_option id].
    rewrite parse_value_strftime by eauto. cbn.
    unfold ts_geb in Hlo. unfold ts_leb in Hhi. unfold ts_gtb.
    by rewrite Hlo, Hhi. }
  rewrite filter_all by (intros r Hr; by destruct (Hp r Hr) as (t & _ & ? & _)).
  rewrite <-(list_fmap_id rs) at 2. apply list_fmap_ext.
  intros _ r Hr%list_elem_of_lookup_2.
  destruct (Hp r Hr) as (t & -> & _ & Hcell). cbn. by apply insert_id.
Qed.

(** C8.  Parsing a canonical [YYYY-MM-DD] string of a valid day and
    printing the result gives the identical string; and on a table whose
    sale dates are such strings, of days within the valid range, the
    whole Date Normalizer (parse, filter, print) returns the very same
    table. *)
Theorem normalize_fecha_canonical today df :
  "fecha_venta" ∈ columns df →
  (∀ r, r ∈ rows df →
     ∃ t, valid_tsb t = true
          ∧ ts_geb (midnight t) min_date = true
          ∧ ts_leb (midnight t) today = true
          ∧ r !! "fecha_venta" = Some (Str (strftime t))) →
  (∀ r, r ∈ rows df →
     ∃ s, r !! "fecha_venta" = Some (Str s)
          ∧ dt_strftime (parse_value infer (series "fecha_venta" df) (Str s)) = Str s)
  ∧ normalize_fecha infer today df = df.
Proof.
  intros Hc Hcanon. split.
  - intros r Hr. destruct (Hcanon r Hr) as (t & Hv & _ & _ & Hcell).
    exists (strftime t). split; [done|].
    rewrite parse_value_strftime; [done| |done].
    apply (iso_column_canonical _ (cell "fecha_venta" r)).
    + by apply list_elem_of_fmap_2.
    + intros v (r0 & -> & Hr0)%list_elem_of_fmap.
      destruct (Hcanon r0 Hr0) as (t0 & Hv0 & _ & _ & Hcell0).
      exists t0. split; [done|]. unfold cell. by rewrite Hcell0.
  - apply df_eq; [apply normalize_fecha_columns|].
    rewrite normalize_fecha_rows by done. by apply spec_normalize_canonical.
Qed.

(** The normaliser is idempotent on every table: its output is made of
    canonical in-range dates. *)
Lemma normalize_fecha_idempotent today df :
  normalize_fecha infer today (normalize_fecha infer today df)
  = normalize_fecha infer today df.
Proof.
  destruct (decide ("fecha_venta" ∈ columns df)) as [Hc|Hc].
  2:{ assert (normalize_fecha infer today df = df) as Hid
        by (unfold normalize_fecha; by rewrite decide_False).
      by rewrite !Hid. }
  apply df_eq; [by rewrite !normalize_fecha_columns|].
  rewrite (normalize_fecha_rows today (normalize_fecha infer today df))
    by (by rewrite normalize_fecha_columns).
  apply spec_normalize_canonical. intros r' Hr'.
  destruct (normalize_fecha_elem today df r' Hc Hr')
    as (r & t & _ & -> & _ & Hv & Hlo & Hhi).
  pose proof (valid_tsb_inv _ Hv) as [_ Hn].
  exists t. rewrite lookup_insert_eq. repeat split; try done.
  - apply midnight_ge_min; [done|lia].
  - eapply ts_leb_trans; [apply midnight_le; lia|done].
Qed.

End Normalizer.

(** ** Quality repair *)

Lemma updates_refl c (f : value → value) (r : row) :
  f (cell c r) = cell c r → updates c f r r.
Proof. intros H. by split. Qed.

Lemma updates_insert c (f : value → value) (r : row) :
  updates c f r (<[c := f (cell c r)]> r).
Proof. split; [apply cell_insert|]. intros c' Hc. by rewrite lookup_insert_ne. Qed.

Lemma updates_trans c (f g : value → value) (r1 r2 r3 : row) :
  updates c f r1 r2 → updates c g r2 r3 → updates c (g ∘ f) r1 r3.
Proof.
  intros [H1 F1] [H2 F2]. split; [cbn; congruence|].
  intros c' Hc. by rewrite F2, F1.
Qed.

Lemma updates_other c c' (f : value → value) (r r' : row) :
  c' ≠ c → updates c f r r' → cell c' r' = cell c' r.
Proof. intros Hc [_ F]. unfold cell. by rewrite F. Qed.

Lemma Forall2_updates_fmap c (f : value → value) (g : row → row) (rs : list row) :
  (∀ r, r ∈ rs → updates c f r (g r)) → Forall2 (updates c f) rs (g <$> rs).
Proof.
  induction rs as [|r rs IH]; intros H; [constructor|].
  cbn. constructor; [apply H; left|]. apply IH. intros; apply H. by right.
Qed.

Lemma Forall2_updates_series c (f : value → value) (rs rs' : list row) :
  Forall2 (updates c f) rs rs' → cell c <$> rs' = f <$> (cell c <$> rs).
Proof. induction 1 as [|r r' rs rs' [H _] _ IH]; [done|]. cbn. by rewrite H, IH. Qed.

Lemma Forall2_updates_trans c (f g : value → value) (l1 l2 l3 : list row) :
  Forall2 (updates c f) l1 l2 → Forall2 (updates c g) l2 l3 →
  Forall2 (updates c (g ∘ f)) l1 l3.
Proof.
  intros H. revert l3. induction H as [|r1 r2 l1 l2 H1 _ IH]; intros l3 H3.
  - inversion H3. constructor.
  - inversion H3 as [|? r3 ? l3' H2 H3']; subst. constructor; [|by apply IH].
    by eapply updates_trans.
Qed.

Lemma Forall2_updates_ext c (f g : value → value) (l1 l2 : list row) :
  (∀ v, f v = g v) → Forall2 (updates c f) l1 l2 → Forall2 (updates c g) l1 l2.
Proof.
  intros E H. eapply Forall2_impl; [exact H|]. intros r r' [H1 F]. split; [|done].
  by rewrite <-E.
Qed.

(** [s < 0] goes through on an amount column and yields the mask of its
    negative entries; one string or timestamp makes it raise. *)
Lemma lt0_series_numeric s :
  forallb numericb s = true → lt0_series s = Ok (negative <$> s).
Proof.
  induction s as [|v s IH]; [done|]. cbn [forallb]. intros [Hv Hs]%andb_prop.
  cbn [lt0_series]. rewrite (IH Hs). by destruct v.
Qed.

Lemma lt0_series_raises s :
  forallb numericb s = false → lt0_series s = Raise TypeError.
Proof.
  induction s as [|v s IH]; [done|]. cbn [forallb]. intros H.
  cbn [lt0_series]. destruct v as [|q|x|t]; try done; cbn in H |- *; by rewrite (IH H).
Qed.

Lemma fillna_updates c v (rs : list row) :
  Forall2 (updates c (λ x, if isnull x then v else x)) rs (fillna c v rs).
Proof.
  apply Forall2_updates_fmap. intros r _. destruct (isnull (cell c r)) eqn:E.
  - split; [by rewrite cell_insert, E|]. intros c' Hc. by rewrite lookup_insert_ne.
  - apply updates_refl. by rewrite E.
Qed.

Lemma mean_arith_mean s :
  mean s = match arith_mean (nums s) with Some q => Num q | None => NaN end.
Proof. unfold mean, arith_mean. by destruct (nums s). Qed.

Lemma impute_fill m v :
  impute m v = if isnull v then match m with Some q => Num q | None => NaN end else v.
Proof. by destruct v, m. Qed.

Lemma fillna_no_null c v (rs : list row) :
  any_null (cell c <$> rs) = false → fillna c v rs = rs.
Proof.
  rewrite any_null_false. intros H. unfold fillna.
  rewrite <-(list_fmap_id rs) at 2. apply list_fmap_ext.
  intros _ r Hr%list_elem_of_lookup_2.
  by rewrite (H (cell c r)) by (by apply list_elem_of_fmap_2).
Qed.

Lemma count_true_zero {A} (p : A → bool) (l : list A) :
  count_true (p <$> l) = 0%nat → ∀ x, x ∈ l → p x = false.
Proof.
  unfold count_true. intros H x Hx.
  pose proof (filter_none_length _ _ H (p x)) as Hn.
  destruct (p x) eqn:E; [|done]. exfalso. apply Hn; [|done].
  rewrite <-E. by apply list_elem_of_fmap_2.
Qed.

Lemma with_rows_rows df : with_rows df (rows df) = df.
Proof. by destruct df. Qed.

(** Rows after the negative correction of lines 51 to 54. *)
Lemma zeroed_updates (rs : list row) :
  Forall2 (updates "importe" neg_correct) rs
    ((λ r : row, if negative (cell "importe" r) then <["importe" := Num 0]> r else r) <$> rs).
Proof.
  apply Forall2_updates_fmap. intros r _.
  destruct (negative (cell "importe" r)) eqn:E.
  - split; [unfold neg_correct; by rewrite cell_insert, E|].
    intros c' Hc. by rewrite lookup_insert_ne.
  - apply updates_refl. unfold neg_correct. by rewrite E.
Qed.

Lemma fillna_inplace_updates pd c v (rs : list row) :
  Forall2 (updates c (stored pd (λ x, if isnull x then v else x)))
    rs (fillna_inplace pd c v rs).
Proof.
  destruct pd; cbn; [apply fillna_updates|].
  apply Forall_Forall2_diag, Forall_forall. intros r _. by apply updates_refl.
Qed.

Lemma fillna_inplace_no_null pd c v (rs : list row) :
  any_null (cell c <$> rs) = false → fillna_inplace pd c v rs = rs.
Proof. destruct pd; [apply fillna_no_null|done]. Qed.

(** The guards of lines 52 and 58 only skip work that would change
    nothing: on an amount column the stage is the negative correction
    followed by the in-place fill with the mean of the corrected
    column. *)
Lemma repair_importe_unguarded pd df :
  "importe" ∈ columns df →
  forallb numericb (series "importe" df) = true →
  repair_importe pd df =
    Ok (with_rows df
          (fillna_inplace pd "importe" (mean (neg_correct <$> series "importe" df))
             ((λ r : row, if negative (cell "importe" r) then <["importe" := Num 0]> r else r)
                <$> rows df))).
Proof.
  intros Hc Hnum. unfold repair_importe. rewrite decide_True by done.
  rewrite (lt0_series_numeric _ Hnum). cbn [bind].
  set (zeroed := (λ r : row, if negative (cell "importe" r) then <["importe" := Num 0]> r else r)
                   <$> rows df).
  assert ((if (0 <? count_true (negative <$> series "importe" df))%nat
           then Ok (with_rows df (loc_set (negative <$> series "importe" df) "importe" (Num 0) (rows df)))
           else Ok df) = Ok (with_rows df zeroed)) as ->.
  { unfold series. rewrite <-list_fmap_compose.
    rewrite (loc_set_fmap (negative ∘ cell "importe")). fold zeroed.
    destruct (0 <? _)%nat eqn:E; [done|]. apply Nat.ltb_ge in E.
    f_equal. rewrite <-(with_rows_rows df) at 1. f_equal.
    subst zeroed. rewrite <-(list_fmap_id (rows df)) at 1. apply list_fmap_ext.
    intros _ r Hr%list_elem_of_lookup_2.
    pose proof (count_true_zero (negative ∘ cell "importe") (rows df)
                  ltac:(lia) r Hr) as Hz.
    cbn in Hz |- *. by rewrite Hz. }
  cbn [bind]. rewrite series_with_rows.
  assert (cell "importe" <$> zeroed = neg_correct <$> series "importe" df) as Hs
    by apply (Forall2_updates_series _ _ _ _ (zeroed_updates (rows df))).
  rewrite Hs. cbn [rows with_rows].
  destruct (any_null _) eqn:E; [done|].
  rewrite fillna_inplace_no_null by (by rewrite Hs). done.
Qed.

(** What the amount stage does to each row. *)
Lemma repair_importe_rows pd df :
  "importe" ∈ columns df →
  forallb numericb (series "importe" df) = true →
  ∃ out, repair_importe pd df = Ok out
         ∧ columns out = columns df
         ∧ Forall2 (updates "importe"
                      (λ v, stored pd
                              (impute (arith_mean (nums (neg_correct <$> series "importe" df))))
                              (neg_correct v)))
             (rows df) (rows out).
Proof.
  intros Hc Hnum. rewrite repair_importe_unguarded by done.
  eexists. split; [done|]. split; [done|]. cbn [rows with_rows].
  eapply Forall2_updates_ext; [|eapply Forall2_updates_trans;
                                  [apply zeroed_updates|apply fillna_inplace_updates]].
  intros v. destruct pd; cbn; [|done]. by rewrite impute_fill, mean_arith_mean.
Qed.

Lemma negative_lt q : negative (Num q) = true ↔ (q < 0)%Q.
Proof.
  cbn. rewrite Qlt_alt. destruct (q ?= 0)%Q; split; done.
Qed.

Lemma negative_ge q : negative (Num q) = false ↔ (0 <= q)%Q.
Proof.
  rewrite <-not_true_iff_false, negative_lt. split.
  - apply Qnot_lt_le.
  - apply Qle_not_lt.
Qed.

Lemma Forall2_elem_of_r {A B} (P : A → B → Prop) (l : list A) (k : list B) y :
  Forall2 P l k → y ∈ k → ∃ x, x ∈ l ∧ P x y.
Proof.
  induction 1 as [|a b l k HP _ IH]; intros Hy; [by apply elem_of_nil in Hy|].
  apply elem_of_cons in Hy as [->|Hy].
  - exists a. split; [left|done].
  - destruct (IH Hy) as (x & Hx & Hxy). exists x. split; [by right|done].
Qed.

(** The amount stage before pandas 3.0.  On a joined table with a
    numeric amount column it returns, and what it returns is: first
    every amount below 0 replaced by 0, then every missing amount
    replaced by the arithmetic mean of the non-missing amounts of the
    column as corrected, zeros included (with no non-missing amount
    there is no mean, pandas' NaN, and the cell stays missing).  Row by
    row: a negative amount becomes 0, a non-negative one is kept, a
    missing one takes that mean. *)
Lemma amount_sanitization df :
  "importe" ∈ columns df →
  forallb numericb (series "importe" df) = true →
  ∃ out, repair_importe Pandas2 df = Ok out
    ∧ series "importe" out = spec_amounts (series "importe" df)
    ∧ length (rows out) = length (rows df)
    ∧ ∀ i r, rows df !! i = Some r →
        ∃ r', rows out !! i = Some r'
          ∧ (∀ q, cell "importe" r = Num q → (q < 0)%Q → cell "importe" r' = Num 0)
          ∧ (∀ q, cell "importe" r = Num q → (0 <= q)%Q → cell "importe" r' = Num q)
          ∧ (cell "importe" r = NaN →
               cell "importe" r' =
                 match arith_mean (nums (neg_correct <$> series "importe" df)) with
                 | Some m => Num m
                 | None => NaN
                 end).
Proof.
  intros Hc Hnum.
  destruct (repair_importe_rows Pandas2 df Hc Hnum) as (out & Hout & _ & HF).
  cbn [stored] in HF.
  exists out. split; [done|]. split; [|split].
  - unfold series, spec_amounts.
    rewrite (Forall2_updates_series _ _ _ _ HF).
    exact (list_fmap_compose neg_correct (impute _) _).
  - symmetry. by eapply Forall2_length.
  - intros i r Hr.
    destruct (Forall2_lookup_l _ _ _ _ _ HF Hr) as (r' & Hr' & [Hcell _]).
    exists r'. split; [done|]. rewrite Hcell. repeat split.
    + intros q -> Hq%negative_lt. unfold neg_correct. by rewrite Hq.
    + intros q -> Hq%negative_ge. unfold neg_correct. rewrite Hq.
      by destruct (arith_mean _).
    + intros ->. cbn. by destruct (arith_mean _).
Qed.

(** The amount stage from pandas 3.0 on: the negative correction alone.
    The mean is computed, the fill is lost, and a missing amount stays
    missing. *)
Lemma repair_importe_no_fill df :
  "importe" ∈ columns df →
  forallb numericb (series "importe" df) = true →
  ∃ out, repair_importe Pandas3 df = Ok out
    ∧ series "importe" out = neg_correct <$> series "importe" df
    ∧ ∀ i r, rows df !! i = Some r → cell "importe" r = NaN →
        ∃ r', rows out !! i = Some r' ∧ cell "importe" r' = NaN.
Proof.
  intros Hc Hnum.
  destruct (repair_importe_rows Pandas3 df Hc Hnum) as (out & Hout & _ & HF).
  cbn [stored] in HF.
  exists out. split; [done|]. split.
  - unfold series. by rewrite (Forall2_updates_series _ _ _ _ HF).
  - intros i r Hr Hnan.
    destruct (Forall2_lookup_l _ _ _ _ _ HF Hr) as (r' & Hr' & [Hcell _]).
    exists r'. split; [done|]. by rewrite Hcell, Hnan.
Qed.

(** ** The name fill *)

Lemma fill_nombre_columns pd text df out :
  fill_nombre pd text df = Ok out → columns out = columns df.
Proof.
  unfold fill_nombre. destruct (_ && _); [|by intros [= <-]].
  destruct pd, text; try done; by intros [= <-].
Qed.

Lemma fill_nombre_absent pd text df :
  "nombre_cliente" ∉ columns df → fill_nombre pd text df = Ok df.
Proof. intros H. unfold fill_nombre. by rewrite bool_decide_eq_false_2. Qed.

(** The name stage returns unless, from 3.0 on, it is to fill a column
    that is not text. *)
Lemma fill_nombre_returns pd text df :
  names_fillable pd text df = true → ∃ out, fill_nombre pd text df = Ok out.
Proof.
  unfold names_fillable, fill_nombre. destruct (_ && _); [|by eauto].
  destruct pd, text; try done; eauto.
Qed.

Lemma fill_nombre_raises pd text df :
  names_fillable pd text df = false → fill_nombre pd text df = Raise TypeError.
Proof.
  unfold names_fillable, fill_nombre. destruct pd; [done|].
  destruct text; [done|]. cbn. by destruct (_ && _).
Qed.

Lemma fill_nombre_fillable pd text df out :
  fill_nombre pd text df = Ok out → names_fillable pd text df = true.
Proof.
  intros H. destruct (names_fillable pd text df) eqn:E; [done|].
  by rewrite (fill_nombre_raises _ _ _ E) in H.
Qed.

(** The guard of line 66 only skips a fill that would change nothing. *)
Lemma fill_nombre_rows pd text df out :
  "nombre_cliente" ∈ columns df →
  fill_nombre pd text df = Ok out →
  rows out = fillna_inplace pd "nombre_cliente" (Str "Desconocido") (rows df).
Proof.
  intros Hc. unfold fill_nombre. rewrite bool_decide_eq_true_2 by done. cbn [andb].
  destruct (any_null _) eqn:E.
  - destruct pd, text; try done; by intros [= <-].
  - intros [= <-]. by rewrite fillna_inplace_no_null.
Qed.

Lemma fill_nombre_updates pd text df out :
  "nombre_cliente" ∈ columns df →
  fill_nombre pd text df = Ok out →
  Forall2 (updates "nombre_cliente" (stored pd name_fill)) (rows df) (rows out).
Proof.
  intros Hc H. rewrite (fill_nombre_rows _ _ _ _ Hc H). apply fillna_inplace_updates.
Qed.

(** Whether or not the table has a name column, the name stage leaves
    every other column of every row as it was. *)
Lemma fill_nombre_frame pd text df out :
  fill_nombre pd text df = Ok out →
  Forall2 (λ r r' : row, ∀ c, c ≠ "nombre_cliente" → r' !! c = r !! c)
    (rows df) (rows out).
Proof.
  intros H. destruct (decide ("nombre_cliente" ∈ columns df)) as [Hc|Hc].
  - eapply Forall2_impl; [by eapply fill_nombre_updates|]. by intros r r' [_ F].
  - rewrite fill_nombre_absent in H by done. injection H as <-.
    by apply Forall_Forall2_diag, Forall_forall.
Qed.

Lemma repair_importe_absent pd df :
  "importe" ∉ columns df → repair_importe pd df = Ok df.
Proof. intros H. unfold repair_importe. by rewrite decide_False. Qed.

Lemma repair_importe_raises pd df :
  "importe" ∈ columns df →
  forallb numericb (series "importe" df) = false →
  repair_importe pd df = Raise TypeError.
Proof.
  intros Hc Hnum. unfold repair_importe. rewrite decide_True by done.
  by rewrite (lt0_series_raises _ Hnum).
Qed.

Lemma repair_importe_numeric pd df df1 :
  repair_importe pd df = Ok df1 → amounts_numeric df.
Proof.
  intros H Hc. destruct (forallb numericb (series "importe" df)) eqn:Hnum; [done|].
  by rewrite repair_importe_raises in H.
Qed.

Lemma repair_importe_frame pd df :
  amounts_numeric df →
  ∃ out, repair_importe pd df = Ok out
    ∧ columns out = columns df
    ∧ Forall2 (λ r r' : row, ∀ c, c ≠ "importe" → r' !! c = r !! c) (rows df) (rows out).
Proof.
  intros Hnum. destruct (decide ("importe" ∈ columns df)) as [Hc|Hc].
  - destruct (repair_importe_rows pd df Hc (Hnum Hc)) as (out & Hout & Hcol & HF).
    exists out. split; [done|]. split; [done|].
    eapply Forall2_impl; [exact HF|]. by intros r r' [_ F].
  - exists df. split; [by apply repair_importe_absent|]. split; [done|].
    by apply Forall_Forall2_diag, Forall_forall.
Qed.

Lemma repair_importe_columns pd df df1 :
  repair_importe pd df = Ok df1 → columns df1 = columns df.
Proof.
  intros H. destruct (repair_importe_frame pd df) as (out & H' & Hcol & _).
  - by eapply repair_importe_numeric.
  - congruence.
Qed.

Lemma Forall2_fmap_eq {A B} (f : A → B) (l1 l2 : list A) :
  Forall2 (λ x y, f y = f x) l1 l2 → f <$> l2 = f <$> l1.
Proof. induction 1 as [|x y l1 l2 E _ IH]; [done|]. cbn. by rewrite E, IH. Qed.

(** The amount stage does not touch the names: whether the name stage
    returns can be read off the joined table. *)
Lemma repair_importe_names pd text df df1 :
  repair_importe pd df = Ok df1 →
  names_fillable pd text df1 = names_fillable pd text df.
Proof.
  intros H. destruct (repair_importe_frame pd df) as (out & H' & Hcol & HF).
  { by eapply repair_importe_numeric. }
  rewrite H in H'. injection H' as <-.
  unfold names_fillable. rewrite Hcol.
  assert (series "nombre_cliente" df1 = series "nombre_cliente" df) as ->; [|done].
  apply Forall2_fmap_eq. eapply Forall2_impl; [exact HF|].
  intros r r' F. unfold cell. by rewrite F.
Qed.

(** C6.  On every joined table whose amounts are numeric the Quality
    Repairer returns (from pandas 3.0 on: unless it is to fill a name
    column that is not text) a table with the same columns and the same
    rows in the same order (none removed, none added), and in every row
    every column other than the amount and the customer name is as it
    was. *)
Theorem quality_repair_frame pd text df :
  amounts_numeric df →
  names_fillable pd text df = true →
  ∃ out, quality_repair pd text df = Ok out
    ∧ columns out = columns df
    ∧ length (rows out) = length (rows df)
    ∧ Forall2 (λ r r' : row,
                 ∀ c, c ≠ "importe" → c ≠ "nombre_cliente" → r' !! c = r !! c)
        (rows df) (rows out).
Proof.
  intros Hnum Hfill. destruct (repair_importe_frame pd df Hnum) as (df1 & H1 & Hcol & HF1).
  rewrite <-(repair_importe_names _ _ _ _ H1) in Hfill.
  destruct (fill_nombre_returns _ _ _ Hfill) as [df2 H2].
  exists df2. unfold quality_repair. rewrite H1. cbn [bind].
  split; [done|]. split; [by rewrite (fill_nombre_columns _ _ _ _ H2)|].
  pose proof (fill_nombre_frame _ _ _ _ H2) as HF2.
  split; [by rewrite <-(Forall2_length _ _ _ HF2), <-(Forall2_length _ _ _ HF1)|].
  clear -HF1 HF2. revert HF2. generalize (rows df2).
  induction HF1 as [|r r1 l l1 F1 _ IH]; intros l2 HF2.
  - inversion HF2. constructor.
  - inversion HF2 as [|? r2 ? l2' F2 HF2']; subst. constructor; [|by apply IH].
    intros c Hi Hn. by rewrite F2, F1.
Qed.

Lemma Forall2_compose {A B C} (P : A → B → Prop) (Q : B → C → Prop) (R : A → C → Prop)
    (l1 : list A) (l2 : list B) (l3 : list C) :
  (∀ x y z, P x y → Q y z → R x z) →
  Forall2 P l1 l2 → Forall2 Q l2 l3 → Forall2 R l1 l3.
Proof.
  intros HR H. revert l3. induction H as [|x y l1 l2 HP _ IH]; intros l3 H3.
  - inversion H3. constructor.
  - inversion H3 as [|? z ? l3' HQ H3']; subst. constructor; [|by apply IH].
    by eapply HR.
Qed.

Lemma name_fill_not_null v : name_fill v ≠ NaN.
Proof. by destruct v. Qed.

Lemma name_fill_cases v : name_fill v = v ∨ (v = NaN ∧ name_fill v = Str "Desconocido").
Proof. destruct v; cbn; auto. Qed.

(** ** The three stages together *)

Section Pipeline.

Variable infer : list value → value → option Timestamp.

Lemma normalize_fecha_absent today df :
  "fecha_venta" ∉ columns df → normalize_fecha infer today df = df.
Proof. intros H. unfold normalize_fecha. by rewrite decide_False. Qed.

(** Every row the normaliser returns is a row it was given, up to the
    date column. *)
Lemma normalize_fecha_origin today df r' :
  r' ∈ rows (normalize_fecha infer today df) →
  ∃ r, r ∈ rows df ∧ ∀ c, c ≠ "fecha_venta" → r' !! c = r !! c.
Proof.
  destruct (decide ("fecha_venta" ∈ columns df)) as [Hc|Hc].
  - intros Hr'. destruct (normalize_fecha_elem infer today df r' Hc Hr')
      as (r & t & Hr & -> & _).
    exists r. split; [done|]. intros c Hne. by rewrite lookup_insert_ne.
  - rewrite normalize_fecha_absent by done. intros Hr'. by exists r'.
Qed.

Lemma clean_numeric pd text today df :
  amounts_numeric df →
  names_fillable pd text df = true →
  ∃ df1 df2, repair_importe pd df = Ok df1
         ∧ fill_nombre pd text df1 = Ok df2
         ∧ clean infer pd text today df = Ok (normalize_fecha infer today df2).
Proof.
  intros Hnum Hfill. destruct (repair_importe_frame pd df Hnum) as (df1 & H1 & _).
  rewrite <-(repair_importe_names _ _ _ _ H1) in Hfill.
  destruct (fill_nombre_returns _ _ _ Hfill) as [df2 H2].
  exists df1, df2. split; [done|]. split; [done|]. unfold clean. by rewrite H1; cbn; rewrite H2.
Qed.

(** What makes the cleaning raise: an amount column that is not numeric
    (line 51), or a name column that cannot be filled (line 68). *)
Lemma clean_raises pd text today df e :
  clean infer pd text today df = Raise e ↔
  e = TypeError
  ∧ (("importe" ∈ columns df ∧ forallb numericb (series "importe" df) = false)
     ∨ (amounts_numeric df ∧ names_fillable pd text df = false)).
Proof.
  unfold clean.
  destruct (decide ("importe" ∈ columns df)) as [Hc|Hc];
    [destruct (forallb numericb (series "importe" df)) eqn:Hnum|].
  2:{ rewrite repair_importe_raises by done. cbn. split.
      - intros [= <-]. split; [done|]. by left.
      - by intros [-> _]. }
  all: assert (amounts_numeric df) as Hn by (by intros ?).
  all: destruct (repair_importe_frame pd df Hn) as (df1 & H1 & _).
  all: rewrite H1; cbn [bind].
  all: rewrite <-(repair_importe_names pd text _ _ H1).
  all: destruct (names_fillable pd text df1) eqn:Hf.
  all: try (destruct (fill_nombre_returns _ _ _ Hf) as [df2 ->]; cbn;
            split; [done|]; intros [_ [[? ?]|[_ ?]]]; congruence).
  all: rewrite (fill_nombre_raises _ _ _ Hf); cbn; split;
         [intros [= <-]; split; [done|]; by right|by intros [-> _]].
Qed.

(** The name stage before pandas 3.0.  On a joined table that has a
    customer-name column (and numeric amounts, so that the repair
    returns), the Quality Repairer gives every row whose name is missing
    the name "Desconocido" and leaves every other name as it is; the
    cleaning returns a table in which every row has a name that is not
    missing and is the name, so filled, of a row of the joined table:
    the original one or "Desconocido". *)
Lemma name_fill_correct text today df :
  "nombre_cliente" ∈ columns df →
  amounts_numeric df →
  ∃ repaired out,
    quality_repair Pandas2 text df = Ok repaired
    ∧ Forall2 (λ r r' : row,
                 cell "nombre_cliente" r' = name_fill (cell "nombre_cliente" r)
                 ∧ (cell "nombre_cliente" r = NaN →
                      cell "nombre_cliente" r' = Str "Desconocido")
                 ∧ (cell "nombre_cliente" r ≠ NaN →
                      cell "nombre_cliente" r' = cell "nombre_cliente" r))
        (rows df) (rows repaired)
    ∧ clean infer Pandas2 text today df = Ok out
    ∧ ∀ r', r' ∈ rows out →
        cell "nombre_cliente" r' ≠ NaN
        ∧ ∃ r, r ∈ rows df
               ∧ (cell "nombre_cliente" r' = cell "nombre_cliente" r
                  ∨ (cell "nombre_cliente" r = NaN
                     ∧ cell "nombre_cliente" r' = Str "Desconocido")).
Proof.
  intros Hc Hnum.
  destruct (clean_numeric Pandas2 text today df Hnum eq_refl) as (df1 & df2 & H1 & H2 & Hclean).
  destruct (repair_importe_frame Pandas2 df Hnum) as (df1' & H1' & Hcol & HF1).
  rewrite H1 in H1'. injection H1' as <-.
  assert ("nombre_cliente" ∈ columns df1) as Hc1 by (by rewrite Hcol).
  pose proof (fill_nombre_updates _ _ _ _ Hc1 H2) as HF2. cbn [stored] in HF2.
  assert (Forall2 (λ r r' : row,
            cell "nombre_cliente" r' = name_fill (cell "nombre_cliente" r))
            (rows df) (rows df2)) as HF.
  { eapply Forall2_compose; [|exact HF1|exact HF2].
    intros r r1 r2 F [E _]. cbn in F. rewrite E. unfold cell. by rewrite F. }
  exists df2, (normalize_fecha infer today df2).
  split; [unfold quality_repair; by rewrite H1|]. split.
  { eapply Forall2_impl; [exact HF|]. intros r r' E. split; [done|]. rewrite E.
    split; [by intros ->|]. intros Hnn. by destruct (cell "nombre_cliente" r). }
  split; [done|].
  intros r' Hr'. apply normalize_fecha_origin in Hr' as (r2 & Hr2 & F3).
  destruct (Forall2_elem_of_r _ _ _ _ HF Hr2) as (r & Hr & E).
  assert (cell "nombre_cliente" r' = name_fill (cell "nombre_cliente" r)) as E'.
  { rewrite <-E. unfold cell. by rewrite F3. }
  split; [rewrite E'; apply name_fill_not_null|].
  exists r. split; [done|]. rewrite E'.
  destruct (name_fill_cases (cell "nombre_cliente" r)) as [->|[-> ->]]; auto.
Qed.

Lemma nums_all_missing (s : list value) :
  (∀ v, v ∈ s → v = NaN) → nums (neg_correct <$> s) = [].
Proof.
  induction s as [|v s IH]; intros H; [done|].
  rewrite (H v) by left. cbn. apply IH. intros; apply H. by right.
Qed.

Lemma forallb_numeric_missing (s : list value) :
  (∀ v, v ∈ s → v = NaN) → forallb numericb s = true.
Proof.
  intros H. apply forallb_forall. intros v Hv%list_elem_of_In. by rewrite (H v Hv).
Qed.

(** C9.  When the joined table has an amount column and every amount is
    missing, the imputation mean is NaN, the amount stage returns with
    every amount still missing (neither an error nor zeros), and the
    script, the name stage returning and the export allowing, writes the
    rows that survive date normalisation with their amounts missing. *)
Theorem all_amounts_missing w ventas_df clientes_df df :
  ventas_csv w = Loaded ventas_df →
  clientes_csv w = Loaded clientes_df →
  merge ventas_df clientes_df "cliente_id" = Ok df →
  "importe" ∈ columns df →
  (∀ r, r ∈ rows df → cell "importe" r = NaN) →
  names_fillable (lib w) (joined_names_text ventas_df clientes_df) df = true →
  writable w = true →
  mean (series "importe" df) = NaN
  ∧ ∃ df1 df2, repair_importe (lib w) df = Ok df1
      ∧ series "importe" df1 = series "importe" df
      ∧ fill_nombre (lib w) (joined_names_text ventas_df clientes_df) df1 = Ok df2
      ∧ script infer w = Exported (normalize_fecha infer (now w) df2)
      ∧ ∀ r', r' ∈ rows (normalize_fecha infer (now w) df2) →
              cell "importe" r' = NaN.
Proof.
  intros Hv Hcl Hm Hc Hall Hfill Hw.
  assert (∀ v, v ∈ series "importe" df → v = NaN) as Hs.
  { intros v (r & -> & Hr)%list_elem_of_fmap. by apply Hall. }
  pose proof (forallb_numeric_missing _ Hs) as Hnum.
  assert (nums (series "importe" df) = []) as Hn0.
  { clear -Hs. induction (series "importe" df) as [|v s IH]; [done|].
    rewrite (Hs v) by left. cbn. apply IH. intros; apply Hs. by right. }
  split; [unfold mean; by rewrite Hn0|].
  destruct (repair_importe_rows (lib w) df Hc Hnum) as (df1 & H1 & Hcol & HF).
  rewrite (nums_all_missing _ Hs) in HF. cbn [arith_mean] in HF.
  assert (∀ v, stored (lib w) (impute None) (neg_correct v) = neg_correct v) as Hst
    by (intros v; destruct (lib w); cbn; [by destruct (neg_correct v)|done]).
  assert (∀ r1, r1 ∈ rows df1 → cell "importe" r1 = NaN) as Hall1.
  { intros r1 Hr1. destruct (Forall2_elem_of_r _ _ _ _ HF Hr1) as (r & Hr & [E _]).
    rewrite E, Hst, (Hall r Hr). done. }
  rewrite <-(repair_importe_names _ _ _ _ H1) in Hfill.
  destruct (fill_nombre_returns _ _ _ Hfill) as [df2 H2].
  exists df1, df2. split; [done|]. split; [|split; [done|split]].
  - unfold series. rewrite (Forall2_updates_series _ _ _ _ HF).
    rewrite <-(list_fmap_id (cell "importe" <$> rows df)) at 2.
    apply list_fmap_ext. intros _ v Hv'%list_elem_of_lookup_2.
    by rewrite Hst, (Hs v Hv').
  - unfold script. rewrite Hv, Hcl, Hm. unfold clean. rewrite H1. cbn [bind].
    rewrite H2. cbn [bind]. by rewrite Hw.
  - intros r' Hr'. apply normalize_fecha_origin in Hr' as (r2 & Hr2 & F3).
    destruct (Forall2_elem_of_r _ _ _ _ (fill_nombre_frame _ _ _ _ H2) Hr2) as (r1 & Hr1 & F2).
    unfold cell. rewrite F3, F2 by done. by apply Hall1.
Qed.

(** C10.  A stage whose column the joined table lacks returns the table
    as it is and raises nothing, and the cleaning is then the other
    stages alone; whichever column is missing, the script goes on to the
    export whenever the amount stage has numeric amounts to work on,
    which is always so when the amount column is the missing one, and
    the name stage returns, which is always so when the name column is
    the missing one. *)
Theorem missing_column_skips pd text today df :
  ("importe" ∉ columns df →
     repair_importe pd df = Ok df
     ∧ clean infer pd text today df
       = (do df2 <- fill_nombre pd text df; Ok (normalize_fecha infer today df2)))
  ∧ ("nombre_cliente" ∉ columns df →
       fill_nombre pd text df = Ok df
       ∧ names_fillable pd text df = true
       ∧ clean infer pd text today df
         = (do df1 <- repair_importe pd df; Ok (normalize_fecha infer today df1)))
  ∧ ("fecha_venta" ∉ columns df →
       normalize_fecha infer today df = df
       ∧ clean infer pd text today df
         = (do df1 <- repair_importe pd df; fill_nombre pd text df1))
  ∧ ("importe" ∉ columns df → "nombre_cliente" ∉ columns df →
     "fecha_venta" ∉ columns df → clean infer pd text today df = Ok df)
  ∧ (∀ w ventas_df clientes_df,
       ventas_csv w = Loaded ventas_df →
       clientes_csv w = Loaded clientes_df →
       merge ventas_df clientes_df "cliente_id" = Ok df →
       amounts_numeric df →
       names_fillable (lib w) (joined_names_text ventas_df clientes_df) df = true →
       ∃ out, clean infer (lib w) (joined_names_text ventas_df clientes_df) (now w) df = Ok out
              ∧ script infer w = if writable w then Exported out else ExportError).
Proof.
  repeat split.
  - by apply repair_importe_absent.
  - unfold clean. by rewrite repair_importe_absent.
  - by apply fill_nombre_absent.
  - eapply fill_nombre_fillable. by apply fill_nombre_absent.
  - unfold clean. destruct (repair_importe pd df) as [df1|e] eqn:H1; [|done].
    cbn [bind]. rewrite fill_nombre_absent; [done|].
    by rewrite (repair_importe_columns _ _ _ H1).
  - by apply normalize_fecha_absent.
  - unfold clean. destruct (repair_importe pd df) as [df1|e] eqn:H1; [|done].
    cbn [bind]. destruct (fill_nombre pd text df1) as [df2|e] eqn:H2; [|done].
    cbn [bind]. rewrite normalize_fecha_absent; [done|].
    by rewrite (fill_nombre_columns _ _ _ _ H2), (repair_importe_columns _ _ _ H1).
  - intros Hi Hn Hf. unfold clean. rewrite repair_importe_absent by done. cbn [bind].
    rewrite fill_nombre_absent by done. cbn [bind]. by rewrite normalize_fecha_absent.
  - intros w V C Hv Hcl Hm Hnum Hfill.
    destruct (clean_numeric _ _ (now w) df Hnum Hfill) as (df1 & df2 & _ & _ & Hclean).
    eexists. split; [exact Hclean|].
    unfold script. by rewrite Hv, Hcl, Hm, Hclean.
Qed.

Lemma merge_raises L R k e :
  merge L R k = Raise e ↔
  (e = KeyError k ∧ ¬ (k ∈ columns L ∧ k ∈ columns R))
  ∨ (e = ValueError ∧ k ∈ columns L ∧ k ∈ columns R ∧ keys_comparable k L R = false).
Proof.
  unfold merge. destruct (decide _) as [[HL HR]|Hno]; [destruct (keys_comparable k L R)|].
  - split; [done|]. intros [[_ Hk]|(_ & _ & _ & Hk)]; [by destruct Hk|done].
  - split; [intros [= <-]; right; done|]. intros [[_ Hk]|(-> & _)]; [by destruct Hk|done].
  - split; [intros [= <-]; by left|]. intros [[-> _]|(_ & ? & ? & _)]; [done|tauto].
Qed.

Lemma merge_ok L R k df :
  merge L R k = Ok df →
  k ∈ columns L ∧ k ∈ columns R ∧ keys_comparable k L R = true
  ∧ df = mkDF (merged_columns k L R) (merge_rows k L R).
Proof.
  unfold merge. destruct (decide _) as [[? ?]|?]; [|done].
  destruct (keys_comparable k L R); [|done]. by intros [= <-].
Qed.

(** The script's outcomes, path by path. *)
Lemma script_paths w :
  match script infer w with
  | Exported out =>
      ∃ ventas_df clientes_df df,
        ventas_csv w = Loaded ventas_df ∧ clientes_csv w = Loaded clientes_df
        ∧ merge ventas_df clientes_df "cliente_id" = Ok df
        ∧ clean infer (lib w) (joined_names_text ventas_df clientes_df) (now w) df = Ok out
        ∧ writable w = true
  | ExportError => writable w = false
  | ExitNoInput => ¬ loaded (ventas_csv w) ∨ ¬ loaded (clientes_csv w)
  | Traceback OSError => ¬ loaded (ventas_csv w) ∨ ¬ loaded (clientes_csv w)
  | Traceback _ => amounts_not_numeric w ∨ names_not_fillable w
  | ExitMerge _ => join_key_absent w ∨ join_keys_differ w
  end.
Proof.
  unfold script.
  destruct (ventas_csv w) as [V| |] eqn:Hv.
  2,3: left; by intros [? ?].
  destruct (clientes_csv w) as [C| |] eqn:Hcl.
  2,3: right; by intros [? ?].
  destruct (merge V C "cliente_id") as [df|e] eqn:Hm.
  2:{ apply merge_raises in Hm as [[_ H]|(_ & ? & ? & H)].
      - left. by exists V, C.
      - right. by exists V, C. }
  destruct (clean _ _ _ _ df) as [out|e] eqn:Hclean.
  - destruct (writable w) eqn:Hw; [|done]. by exists V, C, df.
  - apply clean_raises in Hclean as [-> [[Hc Hnum]|[_ Hf]]].
    + left. by exists V, C, df.
    + right. by exists V, C, df.
Qed.


End Pipeline.

(** ** The join *)

Section Join.

Variable k : string.

Lemma elem_of_matches_from (s : row) (R : list row) j j' :
  j' ∈ matches_from k s j R ↔
  (j ≤ j')%nat ∧ ∃ c, R !! (j' - j)%nat = Some c ∧ key_match k s c = true.
Proof.
  revert j. induction R as [|c R IH]; intros j; cbn [matches_from].
  - split; [by intros ?%elem_of_nil|]. by intros (_ & c & ? & _).
  - assert (j' ∈ matches_from k s (S j) R ↔
            (j < j')%nat ∧ ∃ c', (c :: R) !! (j' - j)%nat = Some c'
                                 ∧ key_match k s c' = true) as Htl.
    { rewrite IH. split.
      - intros (Hle & c' & Hc' & Hm). split; [lia|]. exists c'. split; [|done].
        by replace (j' - j)%nat with (S (j' - S j)) by lia.
      - intros (Hlt & c' & Hc' & Hm). split; [lia|]. exists c'. split; [|done].
        by replace (j' - j)%nat with (S (j' - S j)) in Hc' by lia. }
    destruct (key_match k s c) eqn:E.
    + rewrite elem_of_cons, Htl. split.
      * intros [->|[Hlt H]]; [|split; [lia|done]].
        split; [done|]. exists c. by rewrite Nat.sub_diag.
      * intros (Hle & c' & Hc' & Hm).
        destruct (decide (j' = j)) as [->|Hne]; [by left|].
        right. split; [lia|]. by exists c'.
    + rewrite Htl. split.
      * intros [Hlt H]. split; [lia|done].
      * intros (Hle & c' & Hc' & Hm).
        destruct (decide (j' = j)) as [->|Hne].
        -- rewrite Nat.sub_diag in Hc'. injection Hc' as <-. congruence.
        -- split; [lia|]. by exists c'.
Qed.

Lemma NoDup_matches_from (s : row) (R : list row) j : NoDup (matches_from k s j R).
Proof.
  revert j. induction R as [|c R IH]; intros j; cbn [matches_from]; [constructor|].
  destruct (key_match k s c); [|apply IH].
  constructor; [|apply IH]. rewrite elem_of_matches_from. lia.
Qed.

(** The matching right rows, in order, sit at the positions listed. *)
Lemma matches_from_filter (s : row) (R : list row) j :
  Forall2 (λ (c : row) j', (j ≤ j')%nat ∧ R !! (j' - j)%nat = Some c)
    (filter (λ c, key_match k s c = true) R) (matches_from k s j R).
Proof.
  revert j. induction R as [|c R IH]; intros j; cbn [matches_from]; [constructor|].
  assert (Forall2 (λ (c' : row) j', (j ≤ j')%nat ∧ (c :: R) !! (j' - j)%nat = Some c')
            (filter (λ c, key_match k s c = true) R) (matches_from k s (S j) R)) as Htl.
  { eapply Forall2_impl; [apply (IH (S j))|]. intros c' j' [Hle Hc']. split; [lia|].
    by replace (j' - j)%nat with (S (j' - S j)) by lia. }
  rewrite filter_cons. destruct (key_match k s c) eqn:E.
  - rewrite decide_True by done. constructor; [|done].
    split; [done|]. by rewrite Nat.sub_diag.
  - by rewrite decide_False by congruence.
Qed.

Lemma elem_of_merge_index_from (L R : list row) i i' j' :
  (i', j') ∈ merge_index_from k i L R ↔
  (i ≤ i')%nat ∧ ∃ s c, L !! (i' - i)%nat = Some s ∧ R !! j' = Some c
                        ∧ key_match k s c = true.
Proof.
  revert i. induction L as [|s L IH]; intros i; cbn [merge_index_from].
  - split; [by intros ?%elem_of_nil|]. by intros (_ & s & c & ? & _).
  - rewrite elem_of_app, IH, list_elem_of_fmap. split.
    + intros [(j & [= -> ->] & Hj)|(Hle & s' & c & Hs' & Hc & Hm)].
      * apply elem_of_matches_from in Hj as (_ & c & Hc & Hm).
        split; [done|]. exists s, c. rewrite Nat.sub_diag, Nat.sub_0_r in *. done.
      * split; [lia|]. exists s', c.
        by replace (i' - i)%nat with (S (i' - S i)) by lia.
    + intros (Hle & s' & c & Hs' & Hc & Hm).
      destruct (decide (i' = i)) as [->|Hne].
      * left. exists j'. split; [done|]. rewrite Nat.sub_diag in Hs'.
        injection Hs' as <-. apply elem_of_matches_from. split; [lia|].
        exists c. by rewrite Nat.sub_0_r.
      * right. split; [lia|]. exists s', c.
        by replace (i' - i)%nat with (S (i' - S i)) in Hs' by lia.
Qed.

Lemma NoDup_merge_index_from (L R : list row) i : NoDup (merge_index_from k i L R).
Proof.
  revert i. induction L as [|s L IH]; intros i; cbn [merge_index_from]; [constructor|].
  apply NoDup_app. split; [|split; [|apply IH]].
  - apply (NoDup_fmap_2 _), NoDup_matches_from.
  - intros [i' j'] (j & [= -> ->] & _)%list_elem_of_fmap.
    rewrite elem_of_merge_index_from. lia.
Qed.

(** A left row gets as many index pairs as it has matching right rows. *)
Lemma merge_index_from_count (L R : list row) i i' s :
  (i ≤ i')%nat → L !! (i' - i)%nat = Some s →
  length (filter (λ p : nat * nat, p.1 = i') (merge_index_from k i L R))
  = length (filter (λ c, key_match k s c = true) R).
Proof.
  revert i. induction L as [|s0 L IH]; intros i Hle Hs; [done|].
  cbn [merge_index_from]. rewrite filter_app, length_app.
  destruct (decide (i' = i)) as [->|Hne].
  - rewrite Nat.sub_diag in Hs. injection Hs as ->.
    rewrite filter_all.
    2:{ by intros p (j & -> & _)%list_elem_of_fmap. }
    rewrite length_fmap, <-(Forall2_length _ _ _ (matches_from_filter s R 0)).
    assert (filter (λ p : nat * nat, p.1 = i) (merge_index_from k (S i) L R) = []) as ->.
    { apply filter_nothing. intros [i2 j2] H2. cbn. intros ->.
      apply elem_of_merge_index_from in H2. lia. }
    cbn. lia.
  - assert (filter (λ p : nat * nat, p.1 = i') (pair i <$> matches_from k s0 0 R) = []) as ->.
    { apply filter_nothing. intros p (j & -> & _)%list_elem_of_fmap. cbn. lia. }
    cbn. apply IH; [lia|].
    by replace (i' - i)%nat with (S (i' - S i)) in Hs by lia.
Qed.

Lemma merge_rows_index (L R : DataFrame) (L0 : list row) i :
  Forall2 (λ (joined : row) (p : nat * nat),
             ∃ s c, (i ≤ p.1)%nat ∧ L0 !! (p.1 - i)%nat = Some s
                    ∧ rows R !! p.2 = Some c ∧ joined = join_row k L R s c)
    (L0 ≫= λ s, join_row k L R s <$> filter (λ c, key_match k s c = true) (rows R))
    (merge_index_from k i L0 (rows R)).
Proof.
  revert i. induction L0 as [|s L0 IH]; intros i; [constructor|].
  cbn [merge_index_from mbind list_bind]. apply Forall2_app.
  - apply Forall2_fmap.
    eapply Forall2_impl; [apply (matches_from_filter s (rows R) 0)|].
    intros c j [_ Hc]. exists s, c. cbn. rewrite Nat.sub_diag, Nat.sub_0_r in *. done.
  - eapply Forall2_impl; [apply (IH (S i))|].
    intros joined p (s' & c & Hle & Hs' & Hc & ->). exists s', c.
    split; [lia|]. by replace (p.1 - i)%nat with (S (p.1 - S i)) by lia.
Qed.

End Join.

Lemma suffix_x_not_key n : n +:+ "_x" ≠ "cliente_id"%string.
Proof.
  intros H.
  do 11 (destruct n as [|? n]; [by vm_compute in H|]; cbv [String.append] in H;
         fold String.append in H; try discriminate H; injection H as _ H).
Qed.

Lemma left_name_key R n : left_name "cliente_id" R n = "cliente_id"%string ↔ n = "cliente_id"%string.
Proof.
  unfold left_name. destruct (decide _) as [[Hne _]|Hn]; [|done].
  split; [|done]. by intros ?%suffix_x_not_key.
Qed.

(** A joined row carries the sale's customer identifier. *)
Lemma join_row_key L R (s c : row) :
  "cliente_id" ∈ columns L →
  cell "cliente_id" (join_row "cliente_id" L R s c) = cell "cliente_id" s.
Proof.
  intros Hk. unfold join_row, cell at 1.
  erewrite lookup_union_Some_l; [done|].
  induction (columns L) as [|n cols IH]; [by apply elem_of_nil in Hk|].
  cbn [fmap list_fmap list_to_map foldr]. cbn.
  destruct (decide (n = "cliente_id"%string)) as [->|Hne].
  - rewrite (proj2 (left_name_key R _) eq_refl). by rewrite lookup_insert_eq.
  - rewrite lookup_insert_ne by (by rewrite left_name_key).
    apply IH. by apply elem_of_cons in Hk as [?|?].
Qed.

(** The cells of a joined row: the sale's under the left names, the
    customer's under the right names, when the suffixes keep the column
    names apart. *)
Lemma join_row_cells k L R (s c : row) :
  NoDup (merged_columns k L R) →
  (∀ n, n ∈ columns L → join_row k L R s c !! left_name k R n = Some (cell n s))
  ∧ (∀ n, n ∈ right_columns k R → join_row k L R s c !! right_name L n = Some (cell n c)).
Proof.
  unfold merged_columns. intros (HnL & Hdisj & HnR)%NoDup_app. unfold join_row. split.
  - intros n Hn. apply lookup_union_Some_l. apply elem_of_list_to_map_1.
    + by rewrite <-list_fmap_compose.
    + by apply (list_elem_of_fmap_2 (λ n, (left_name k R n, cell n s))).
  - intros n Hn. rewrite lookup_union_r.
    + apply elem_of_list_to_map_1.
      * by rewrite <-list_fmap_compose.
      * by apply (list_elem_of_fmap_2 (λ n, (right_name L n, cell n c))).
    + apply not_elem_of_list_to_map_1. rewrite <-list_fmap_compose.
      intros Hin. apply (Hdisj _ Hin). by apply list_elem_of_fmap_2.
Qed.

(** C1, as amended.  When both tables have the [cliente_id] column and
    it is not numeric in one and text in the other, the join returns,
    and its rows are, in order, one joined row for each pair (sale at
    position i, customer at position j) listed by [merge_index]; no pair
    is listed twice, and a pair is listed exactly when the two rows
    exist and their [cliente_id] values are equal, two missing
    identifiers counting as equal.  The joined row carries that value,
    and, the suffixed column names being distinct, the cells of the sale
    and the cells of the customer.  So a sale or a customer without a
    counterpart is behind no joined row, and a sale matching several
    customer rows is behind as many joined rows as it has matches:
    nothing is deduplicated. *)
Theorem inner_join_pairs ventas_df clientes_df :
  "cliente_id" ∈ columns ventas_df →
  "cliente_id" ∈ columns clientes_df →
  keys_comparable "cliente_id" ventas_df clientes_df = true →
  ∃ df, merge ventas_df clientes_df "cliente_id" = Ok df
    ∧ columns df = merged_columns "cliente_id" ventas_df clientes_df
    ∧ Forall2 (λ (joined : row) (p : nat * nat),
                 ∃ s c, rows ventas_df !! p.1 = Some s
                        ∧ rows clientes_df !! p.2 = Some c
                        ∧ joined = join_row "cliente_id" ventas_df clientes_df s c
                        ∧ cell "cliente_id" joined = cell "cliente_id" s
                        ∧ (NoDup (merged_columns "cliente_id" ventas_df clientes_df) →
                           (∀ n, n ∈ columns ventas_df →
                              joined !! left_name "cliente_id" clientes_df n
                              = Some (cell n s))
                           ∧ (∀ n, n ∈ right_columns "cliente_id" clientes_df →
                                joined !! right_name ventas_df n = Some (cell n c))))
        (rows df)
        (merge_index "cliente_id" (rows ventas_df) (rows clientes_df))
    ∧ NoDup (merge_index "cliente_id" (rows ventas_df) (rows clientes_df))
    ∧ (∀ i j,
         (i, j) ∈ merge_index "cliente_id" (rows ventas_df) (rows clientes_df) ↔
         ∃ s c, rows ventas_df !! i = Some s ∧ rows clientes_df !! j = Some c
                ∧ value_eqb (cell "cliente_id" s) (cell "cliente_id" c) = true)
    ∧ (∀ s c, cell "cliente_id" s = NaN → cell "cliente_id" c = NaN →
              key_match "cliente_id" s c = true)
    ∧ (∀ i s, rows ventas_df !! i = Some s →
         (∀ c, c ∈ rows clientes_df → key_match "cliente_id" s c = false) →
         ∀ j, (i, j) ∉ merge_index "cliente_id" (rows ventas_df) (rows clientes_df))
    ∧ (∀ j c, rows clientes_df !! j = Some c →
         (∀ s, s ∈ rows ventas_df → key_match "cliente_id" s c = false) →
         ∀ i, (i, j) ∉ merge_index "cliente_id" (rows ventas_df) (rows clientes_df))
    ∧ (∀ i s, rows ventas_df !! i = Some s →
         length (filter (λ p : nat * nat, p.1 = i)
                   (merge_index "cliente_id" (rows ventas_df) (rows clientes_df)))
         = length (filter (λ c, key_match "cliente_id" s c = true) (rows clientes_df))).
Proof.
  intros HL HR Hk. exists (mkDF (merged_columns "cliente_id" ventas_df clientes_df)
                          (merge_rows "cliente_id" ventas_df clientes_df)).
  assert (∀ i j,
         (i, j) ∈ merge_index "cliente_id" (rows ventas_df) (rows clientes_df) ↔
         ∃ s c, rows ventas_df !! i = Some s ∧ rows clientes_df !! j = Some c
                ∧ key_match "cliente_id" s c = true) as Hiff.
  { intros i j. unfold merge_index. rewrite elem_of_merge_index_from.
    rewrite Nat.sub_0_r. split; [by intros [_ ?]|]. intros ?. split; [lia|done]. }
  split; [unfold merge; by rewrite decide_True, Hk|]. split; [done|].
  split; [|split; [|split; [|split; [|split; [|split]]]]].
  - cbn [rows]. unfold merge_rows, merge_index.
    eapply Forall2_impl; [apply merge_rows_index|].
    intros joined p (s & c & _ & Hs & Hc & ->). exists s, c.
    rewrite Nat.sub_0_r in Hs. repeat split; try done.
    + by apply join_row_key.
    + by apply join_row_cells.
    + by apply join_row_cells.
  - apply NoDup_merge_index_from.
  - exact Hiff.
  - intros s c Hs Hc. unfold key_match. by rewrite Hs, Hc.
  - intros i s Hs Hnone j (s' & c & Hs' & Hc & Hm)%Hiff.
    rewrite Hs in Hs'. injection Hs' as <-.
    rewrite Hnone in Hm; [done|]. by eapply list_elem_of_lookup_2.
  - intros j c Hc Hnone i (s & c' & Hs & Hc' & Hm)%Hiff.
    rewrite Hc in Hc'. injection Hc' as <-.
    rewrite Hnone in Hm; [done|]. by eapply list_elem_of_lookup_2.
  - intros i s Hs. apply merge_index_from_count; [lia|]. by rewrite Nat.sub_0_r.
Qed.

(** ** The amount invariant, and where it stops *)

Lemma Qsum_nonneg (xs : list Q) : Forall (λ q, (0 <= q)%Q) xs → (0 <= Qsum xs)%Q.
Proof.
  induction 1 as [|q xs Hq _ IH]; cbn; [apply Qle_refl|].
  change (0 + 0 <= q + Qsum xs)%Q. by apply Qplus_le_compat.
Qed.

Lemma arith_mean_nonneg (xs : list Q) m :
  Forall (λ q, (0 <= q)%Q) xs → arith_mean xs = Some m → (0 <= m)%Q.
Proof.
  intros Hxs. destruct xs as [|x xs]; [done|]. intros [= <-].
  apply Qle_shift_div_l.
  - change 0%Q with (inject_Z 0). rewrite <-Zlt_Qlt. cbn [length]. lia.
  - rewrite Qmult_0_l. by apply (Qsum_nonneg (x :: xs)).
Qed.

Lemma nums_cons v (s : list value) :
  nums (v :: s) = match v with Num q => q :: nums s | _ => nums s end.
Proof. by destruct v. Qed.

Lemma neg_correct_cases v :
  (v = NaN ∧ neg_correct v = NaN)
  ∨ (∃ q, v = Num q ∧ (q < 0)%Q ∧ neg_correct v = Num 0)
  ∨ (∃ q, v = Num q ∧ (0 <= q)%Q ∧ neg_correct v = Num q)
  ∨ (numericb v = false ∧ neg_correct v = v).
Proof.
  destruct v as [|q|x|t]; [by left| |by do 3 right..].
  right. unfold neg_correct. destruct (negative (Num q)) eqn:E.
  - left. exists q. by apply negative_lt in E.
  - right. left. exists q. by apply negative_ge in E.
Qed.

Lemma nums_corrected_nonneg (s : list value) :
  Forall (λ q, (0 <= q)%Q) (nums (neg_correct <$> s)).
Proof.
  induction s as [|v s IH]; [constructor|].
  change (neg_correct <$> v :: s) with (neg_correct v :: (neg_correct <$> s)).
  rewrite nums_cons.
  destruct (neg_correct_cases v)
    as [[_ ->]|[(q & _ & _ & ->)|[(q & _ & Hq & ->)|[Hn ->]]]]; try done.
  - constructor; [apply Qle_refl|done].
  - by constructor.
  - by destruct v.
Qed.

Lemma nums_corrected_nonempty (s : list value) v :
  v ∈ s → numericb v = true → v ≠ NaN → nums (neg_correct <$> s) ≠ [].
Proof.
  induction s as [|x s IH]; intros Hv Hn Hnn; [by apply elem_of_nil in Hv|].
  change (neg_correct <$> x :: s) with (neg_correct x :: (neg_correct <$> s)).
  rewrite nums_cons.
  apply elem_of_cons in Hv as [<-|Hv].
  - destruct (neg_correct_cases v)
      as [[? _]|[(q & _ & _ & ->)|[(q & _ & _ & ->)|[? _]]]]; try done.
    congruence.
  - specialize (IH Hv Hn Hnn). by destruct (neg_correct x).
Qed.

Section Invariant.

Variable infer : list value → value → option Timestamp.

(** Before pandas 3.0: with an amount column that is numeric and not
    entirely missing, every row of the cleaned table has an amount that
    is present and at least 0. *)
Theorem amount_invariant text today df :
  "importe" ∈ columns df →
  forallb numericb (series "importe" df) = true →
  (∃ v, v ∈ series "importe" df ∧ v ≠ NaN) →
  ∃ out, clean infer Pandas2 text today df = Ok out
         ∧ ∀ r', r' ∈ rows out → ∃ q, cell "importe" r' = Num q ∧ (0 <= q)%Q.
Proof.
  intros Hc Hnum (v0 & Hv0 & Hnn0).
  destruct (repair_importe_rows Pandas2 df Hc Hnum) as (df1 & H1 & _ & HF).
  cbn [stored] in HF.
  destruct (clean_numeric infer Pandas2 text today df (λ _, Hnum) eq_refl)
    as (df1' & df2 & H1' & H2 & Hclean).
  rewrite H1 in H1'. injection H1' as <-.
  exists (normalize_fecha infer today df2).
  split; [done|].
  assert (numericb v0 = true) as Hn0.
  { rewrite forallb_forall in Hnum. by apply Hnum, list_elem_of_In. }
  pose proof (nums_corrected_nonempty _ _ Hv0 Hn0 Hnn0) as Hne.
  pose proof (nums_corrected_nonneg (series "importe" df)) as Hpos.
  destruct (arith_mean (nums (neg_correct <$> series "importe" df))) as [m|] eqn:Em.
  2:{ unfold arith_mean in Em. by destruct (nums _). }
  pose proof (arith_mean_nonneg _ _ Hpos Em) as Hm.
  intros r' Hr'. apply normalize_fecha_origin in Hr' as (r2 & Hr2 & F3).
  destruct (Forall2_elem_of_r _ _ _ _ (fill_nombre_frame _ _ _ _ H2) Hr2) as (r1 & Hr1 & F2).
  destruct (Forall2_elem_of_r _ _ _ _ HF Hr1) as (r & Hr & [E _]).
  unfold cell at 1. rewrite F3, F2 by done. fold (cell "importe" r1). rewrite E.
  assert (numericb (cell "importe" r) = true) as Hn.
  { rewrite forallb_forall in Hnum. apply Hnum, list_elem_of_In.
    by apply (list_elem_of_fmap_2 (cell "importe")). }
  destruct (cell "importe" r) as [|q| |] eqn:Ecell; try done.
  - exists m. by split.
  - unfold neg_correct. destruct (negative (Num q)) eqn:En; cbn.
    + exists 0%Q. split; [done|apply Qle_refl].
    + exists q. split; [done|by apply negative_ge].
Qed.

End Invariant.

(** C3.  The invariant fails on the run where every amount is missing:
    the script exports two rows, and both amounts are missing.  It does
    so under every release of pandas; from 3.0 on the missing name is
    exported as it is, too. *)
Theorem missing_amounts_exported :
  script no_inference world_missing = Exported exported_missing
  ∧ series "importe" exported_missing = [NaN; NaN]
  ∧ script no_inference (on Pandas3 world_missing) = Exported joined_missing
  ∧ series "importe" joined_missing = [NaN; NaN].
Proof. repeat split; vm_compute; reflexivity. Qed.

(** C2.  From pandas 3.0 on the mean imputation of lines 58 to 60 is
    lost.  On the sample table the negative amount becomes 0 and the
    mean of the corrected column, 57/5, is computed, but the missing
    amount of the second row is still missing in the frame the amount
    stage returns, where the specification, as the comment of line 56
    and the message of line 61, has the mean. *)
Theorem mean_fill_lost :
  mean (neg_correct <$> series "importe" joined_ex) = Num (57 # 5)
  ∧ spec_amounts (series "importe" joined_ex)
    = [Num 0; Num (57 # 5); Num 10; Num 7; Num 20; Num 20]
  ∧ (series "importe" <$> (match repair_importe Pandas3 joined_ex with
                            | Ok df => Some df
                            | Raise _ => None
                            end))
    = Some [Num 0; NaN; Num 10; Num 7; Num 20; Num 20]
  ∧ script by_value (on Pandas3 world_ex) = Exported cleaned_ex3
  ∧ series "importe" cleaned_ex3 = [NaN; Num 20; Num 20].
Proof. repeat split; vm_compute; reflexivity. Qed.

(** C4.  From pandas 3.0 on the name fill of line 68 is lost: the run on
    the sample files exports a row whose customer name is missing, where
    the specification, as the comment of line 64 and the message of line
    69, has "Desconocido".  And when no customer has a name at all, the
    fill raises an error nothing catches, and nothing is exported. *)
Theorem missing_names_exported :
  script by_value (on Pandas3 world_ex) = Exported cleaned_ex3
  ∧ series "nombre_cliente" cleaned_ex3 = [Str "Ana"; Str "Eva"; NaN]
  ∧ name_fill <$> [Str "Ana"; Str "Eva"; NaN] = [Str "Ana"; Str "Eva"; Str "Desconocido"]
  ∧ script no_inference world_unnamed = Traceback TypeError.
Proof. repeat split; vm_compute; reflexivity. Qed.

(** ** Sample runs *)

Example merge_ex : merge ventas_ex clientes_ex "cliente_id" = Ok joined_ex.
Proof. vm_compute. reflexivity. Qed.

(** A column both inputs have, other than the key, is renamed on both
    sides: the joined table then has no [importe] column. *)
Example merge_suffix_ex :
  columns <$> (match merge ventas_ex (mkDF ["cliente_id"; "importe"]%string []) "cliente_id" with
               | Ok df => Some df
               | Raise _ => None
               end)
  = Some ["cliente_id"; "importe_x"; "fecha_venta"; "importe_y"]%string.
Proof. vm_compute. reflexivity. Qed.

(** C1, as stated, fails on a sale and a customer that both lack an
    identifier: no identifier is present in either table, and the join
    returns the two rows joined to each other. *)
Lemma missing_ids_joined :
  series "cliente_id" ventas_anon = [NaN]
  ∧ series "cliente_id" clientes_anon = [NaN]
  ∧ merge ventas_anon clientes_anon "cliente_id"
    = Ok (mkDF joined_columns
            [list_to_map [("cliente_id"%string, NaN); ("importe"%string, Num 3);
                          ("fecha_venta"%string, Str "2021-05-01");
                          ("nombre_cliente"%string, Str "Ana")]]).
Proof. repeat split; vm_compute; reflexivity. Qed.

(** C5, as stated, fails on a sale stamped at 18:00 of the day of a run
    made at 17:22: its date is the current date, not a date after it,
    and the row is removed.  (A run on the next day keeps it.) *)
Lemma same_day_removed :
  parsed clock_inference (series "fecha_venta" joined_evening)
    (joined 2 (Num 12) (Str "2026-11-03 18:00:00") (Str "Ana")) = Ts evening
  ∧ midnight evening = midnight run_time
  ∧ ts_geb (midnight evening) min_date = true
  ∧ rows (normalize_fecha clock_inference run_time joined_evening) = []
  ∧ rows (normalize_fecha clock_inference next_day joined_evening)
    = [joined 2 (Num 12) (Str "2026-11-03") (Str "Ana")].
Proof. repeat split; vm_compute; reflexivity. Qed.

(** From pandas 2.0 on a column is read in the layout of its first
    value: a canonical date further down is then not read, and its row
    is removed. *)
Example layout_of_first_value :
  rows (normalize_fecha one_layout run_time joined_layouts)
  = [joined 2 (Num 12) (Str "2021-05-01") (Str "Ana")].
Proof. vm_compute. reflexivity. Qed.

(** Numeric identifiers do not merge with text ones: the join raises,
    and the script leaves at line 30. *)
Example merge_codes_ex :
  merge ventas_ex clientes_codes "cliente_id" = Raise ValueError
  ∧ script no_inference world_codes = ExitMerge ValueError.
Proof. split; vm_compute; reflexivity. Qed.

(** The check of the key dtypes is skipped when a table has no row. *)
Example merge_empty_ex :
  merge (mkDF ventas_columns []) clientes_codes "cliente_id" = Ok (mkDF joined_columns []).
Proof. vm_compute. reflexivity. Qed.

Example merge_no_key_ex :
  merge ventas_ex (mkDF ["id"; "nombre_cliente"]%string []) "cliente_id"
  = Raise (KeyError "cliente_id").
Proof. vm_compute. reflexivity. Qed.

Example merge_index_ex :
  merge_index "cliente_id" (rows ventas_ex) (rows clientes_ex)
  = [(0, 0); (1, 1); (2, 2); (3, 3); (4, 4); (4, 5)]%nat.
Proof. reflexivity. Qed.

(** Negative amounts are zeroed before the mean is taken: the mean of
    0, 10, 7, 20 and 20 is 57/5. *)
Example repair_importe_ex :
  (λ df, series "importe" df) <$> (match repair_importe Pandas2 joined_ex with
                                   | Ok df => Some df
                                   | Raise _ => None
                                   end)
  = Some [Num 0; Num (57 # 5); Num 10; Num 7; Num 20; Num 20].
Proof. vm_compute. reflexivity. Qed.

Example script_ex : script by_value world_ex = Exported cleaned_ex.
Proof. vm_compute. reflexivity. Qed.

Example min_date_parsed : parse_iso "2000-01-01" = Some min_date.
Proof. reflexivity. Qed.

Example strftime_ex : strftime (mkTs 2021 5 1 123) = "2021-05-01"%string.
Proof. reflexivity. Qed.

Example parse_iso_ex : parse_iso "2021-05-01" = Some (mkTs 2021 5 1 0).
Proof. reflexivity. Qed.

Example parse_iso_bad : parse_iso "2022-13-40" = None.
Proof. reflexivity. Qed.

Example parse_iso_leap :
  parse_iso "2024-02-29" = Some (mkTs 2024 2 29 0) ∧ parse_iso "2023-02-29" = None.
Proof. split; reflexivity. Qed.


(** ** The theorems at work on the sample tables *)

Ltac in_columns := vm_compute; repeat constructor.

Ltac each_row Hr :=
  repeat (apply elem_of_cons in Hr as [->|Hr]); [..|by apply elem_of_nil in Hr].

Lemma inner_join_pairs_witness :
  "cliente_id" ∈ columns ventas_ex
  ∧ "cliente_id" ∈ columns clientes_ex
  ∧ keys_comparable "cliente_id" ventas_ex clientes_ex = true
  ∧ ∃ df, merge ventas_ex clientes_ex "cliente_id" = Ok df
          ∧ NoDup (merge_index "cliente_id" (rows ventas_ex) (rows clientes_ex))
          ∧ length (rows df) = 6%nat.
Proof.
  assert ("cliente_id" ∈ columns ventas_ex) as H1 by in_columns.
  assert ("cliente_id" ∈ columns clientes_ex) as H2 by in_columns.
  assert (keys_comparable "cliente_id" ventas_ex clientes_ex = true) as H3 by reflexivity.
  split; [exact H1|]. split; [exact H2|]. split; [exact H3|].
  destruct (inner_join_pairs ventas_ex clientes_ex H1 H2 H3) as (df & Hm & _ & HF & Hnd & _).
  exists df. split; [exact Hm|]. split; [exact Hnd|].
  rewrite (Forall2_length _ _ _ HF). reflexivity.
Defined.

Lemma amount_sanitization_witness :
  "importe" ∈ columns joined_ex
  ∧ forallb numericb (series "importe" joined_ex) = true
  ∧ ∃ out, repair_importe Pandas2 joined_ex = Ok out
           ∧ series "importe" out
             = [Num 0; Num (57 # 5); Num 10; Num 7; Num 20; Num 20].
Proof.
  assert ("importe" ∈ columns joined_ex) as H1 by in_columns.
  assert (forallb numericb (series "importe" joined_ex) = true) as H2 by reflexivity.
  split; [exact H1|]. split; [exact H2|].
  destruct (amount_sanitization joined_ex H1 H2) as (out & Hout & Hs & _).
  exists out. split; [exact Hout|]. rewrite Hs. vm_compute. reflexivity.
Defined.

Lemma quality_repair_frame_witness :
  amounts_numeric joined_ex
  ∧ names_fillable Pandas3 true joined_ex = true
  ∧ ∃ out, quality_repair Pandas3 true joined_ex = Ok out
           ∧ columns out = columns joined_ex
           ∧ length (rows out) = 6%nat.
Proof.
  assert (amounts_numeric joined_ex) as H1 by (intros _; reflexivity).
  assert (names_fillable Pandas3 true joined_ex = true) as H2 by reflexivity.
  split; [exact H1|]. split; [exact H2|].
  destruct (quality_repair_frame Pandas3 true joined_ex H1 H2) as (out & Hout & Hc & Hl & _).
  exists out. split; [exact Hout|]. split; [exact Hc|]. rewrite Hl. reflexivity.
Defined.

Lemma name_fill_correct_witness :
  "nombre_cliente" ∈ columns joined_ex
  ∧ amounts_numeric joined_ex
  ∧ ∃ out, clean by_value Pandas2 true run_time joined_ex = Ok out
           ∧ ∀ r', r' ∈ rows out → cell "nombre_cliente" r' ≠ NaN.
Proof.
  assert ("nombre_cliente" ∈ columns joined_ex) as H1 by in_columns.
  assert (amounts_numeric joined_ex) as H2 by (intros _; reflexivity).
  split; [exact H1|]. split; [exact H2|].
  destruct (name_fill_correct by_value true run_time joined_ex H1 H2)
    as (repaired & out & _ & _ & Hout & Hall).
  exists out. split; [exact Hout|]. intros r' Hr'. exact (proj1 (Hall r' Hr')).
Defined.

Lemma date_normalizer_exact_witness :
  "fecha_venta" ∈ columns joined_ex
  ∧ length (rows (normalize_fecha by_value run_time joined_ex)) = 3%nat
  ∧ ∀ r', r' ∈ rows (normalize_fecha by_value run_time joined_ex) →
          ∃ r t, r ∈ rows joined_ex
                 ∧ parsed by_value (series "fecha_venta" joined_ex) r = Ts t
                 ∧ r' = <["fecha_venta" := Str (strftime t)]> r
                 ∧ ts_leb min_date (midnight t) = true
                 ∧ ts_leb (midnight t) (midnight run_time) = true.
Proof.
  assert ("fecha_venta" ∈ columns joined_ex) as H1 by in_columns.
  split; [exact H1|].
  destruct (date_normalizer_exact by_value run_time joined_ex H1) as (Hrows & _ & Hall).
  split; [rewrite Hrows; vm_compute; reflexivity|].
  intros r' Hr'. destruct (Hall r' Hr') as (r & t & Hr & Hp & Hr'' & _ & _ & Hlo & Hhi).
  exists r, t. repeat split; assumption.
Defined.

Lemma normalize_fecha_canonical_witness :
  "fecha_venta" ∈ columns cleaned_ex
  ∧ normalize_fecha by_value run_time cleaned_ex = cleaned_ex.
Proof.
  assert ("fecha_venta" ∈ columns cleaned_ex) as H1 by in_columns.
  split; [exact H1|].
  refine (proj2 (normalize_fecha_canonical by_value run_time cleaned_ex H1 _)).
  intros r Hr. cbn [rows cleaned_ex] in Hr. each_row Hr.
  - exists (mkTs 2021 5 1 0). repeat split; vm_compute; reflexivity.
  - exists (mkTs 2023 7 15 0). repeat split; vm_compute; reflexivity.
  - exists (mkTs 2023 7 15 0). repeat split; vm_compute; reflexivity.
Defined.

Lemma all_amounts_missing_witness :
  merge ventas_missing clientes_ex "cliente_id" = Ok joined_missing
  ∧ "importe" ∈ columns joined_missing
  ∧ (∀ r, r ∈ rows joined_missing → cell "importe" r = NaN)
  ∧ names_fillable Pandas3 (joined_names_text ventas_missing clientes_ex) joined_missing = true
  ∧ mean (series "importe" joined_missing) = NaN
  ∧ ∃ df1 df2, repair_importe Pandas3 joined_missing = Ok df1
           ∧ fill_nombre Pandas3 (joined_names_text ventas_missing clientes_ex) df1 = Ok df2
           ∧ script no_inference (on Pandas3 world_missing)
             = Exported (normalize_fecha no_inference run_time df2).
Proof.
  assert (merge ventas_missing clientes_ex "cliente_id" = Ok joined_missing) as Hm
    by (vm_compute; reflexivity).
  assert ("importe" ∈ columns joined_missing) as Hc by in_columns.
  assert (∀ r, r ∈ rows joined_missing → cell "importe" r = NaN) as Hall.
  { intros r Hr. cbn [rows joined_missing] in Hr. each_row Hr; reflexivity. }
  assert (names_fillable Pandas3 (joined_names_text ventas_missing clientes_ex)
            joined_missing = true) as Hf by reflexivity.
  split; [exact Hm|]. split; [exact Hc|]. split; [exact Hall|]. split; [exact Hf|].
  destruct (all_amounts_missing no_inference (on Pandas3 world_missing)
              ventas_missing clientes_ex
              joined_missing eq_refl eq_refl Hm Hc Hall Hf eq_refl)
    as (Hmean & df1 & df2 & H1 & _ & H2 & Hscript & _).
  split; [exact Hmean|]. exists df1, df2. split; [exact H1|]. split; [exact H2|exact Hscript].
Defined.

(** * Further properties of the script *)

Lemma amount_invariant_witness :
  "importe" ∈ columns joined_ex
  ∧ forallb numericb (series "importe" joined_ex) = true
  ∧ ∃ out, clean by_value Pandas2 true run_time joined_ex = Ok out
           ∧ ∀ r', r' ∈ rows out → ∃ q, cell "importe" r' = Num q ∧ (0 <= q)%Q.
Proof.
  assert ("importe" ∈ columns joined_ex) as H1 by in_columns.
  assert (forallb numericb (series "importe" joined_ex) = true) as H2 by reflexivity.
  split; [exact H1|]. split; [exact H2|].
  apply (amount_invariant by_value true run_time joined_ex H1 H2).
  exists (Num 10). split; [vm_compute; repeat constructor|discriminate].
Defined.

(** ** The cleaning keeps the rows it is given *)

Lemma untouched_lookup (r : row) c :
  untouched r !! c =
    if decide (c = "importe" ∨ c = "nombre_cliente" ∨ c = "fecha_venta")
    then None else r !! c.
Proof.
  unfold untouched. destruct (decide _) as [[ -> | [ -> | -> ] ] | Hn].
  - by rewrite lookup_delete_eq.
  - by rewrite lookup_delete_ne, lookup_delete_eq by done.
  - by rewrite !lookup_delete_ne, lookup_delete_eq by done.
  - by rewrite !lookup_delete_ne by naive_solver.
Qed.

Lemma untouched_eq (r r' : row) :
  (∀ c, c ≠ "importe" → c ≠ "nombre_cliente" → c ≠ "fecha_venta" → r' !! c = r !! c) →
  untouched r' = untouched r.
Proof.
  intros H. apply map_eq. intros c. rewrite !untouched_lookup.
  destruct (decide _) as [|Hn]; [done|]. apply H; naive_solver.
Qed.

Lemma sublist_fmap_2 {A B} (f : A → B) (l1 l2 : list A) :
  l1 `sublist_of` l2 → (f <$> l1) `sublist_of` (f <$> l2).
Proof. induction 1; cbn; by constructor. Qed.

Section Rows.

Variable infer : list value → value → option Timestamp.

Lemma normalize_fecha_untouched today df :
  (untouched <$> rows (normalize_fecha infer today df)) `sublist_of` (untouched <$> rows df).
Proof.
  destruct (decide ("fecha_venta" ∈ columns df)) as [Hc|Hc].
  2:{ by rewrite normalize_fecha_absent. }
  rewrite normalize_fecha_rows by done. unfold spec_normalize. cbn zeta.
  rewrite <-list_fmap_compose.
  erewrite (list_fmap_ext (untouched ∘ _) untouched).
  - apply sublist_fmap_2, sublist_filter.
  - intros _ r _. cbn. apply untouched_eq. intros c _ _ Hf. by rewrite lookup_insert_ne.
Qed.

(** The cleaning returns (from pandas 3.0 on: unless it is to fill a
    name column that is not text) the rows it was given, or some of
    them, in the order it was given them, and outside the amount, name
    and date columns every cell is as it was: no row is added, repeated
    or moved, and the table keeps its columns. *)
Theorem clean_keeps_rows pd text today df :
  amounts_numeric df →
  names_fillable pd text df = true →
  ∃ out, clean infer pd text today df = Ok out
    ∧ columns out = columns df
    ∧ (untouched <$> rows out) `sublist_of` (untouched <$> rows df)
    ∧ (length (rows out) ≤ length (rows df))%nat.
Proof.
  intros Hnum Hfill. destruct (repair_importe_frame pd df Hnum) as (df1 & H1 & Hcol & HF1).
  destruct (clean_numeric infer pd text today df Hnum Hfill)
    as (df1' & df2 & H1' & H2 & Hclean).
  rewrite H1 in H1'. injection H1' as <-.
  exists (normalize_fecha infer today df2).
  split; [done|].
  split; [by rewrite normalize_fecha_columns, (fill_nombre_columns _ _ _ _ H2)|].
  assert (untouched <$> rows df2 = untouched <$> rows df) as Heq.
  { apply Forall2_fmap_eq.
    eapply Forall2_compose; [|exact HF1|exact (fill_nombre_frame _ _ _ _ H2)].
    intros r r1 r2 F1 F2. apply untouched_eq. intros c Hi Hn _. by rewrite F2, F1. }
  assert ((untouched <$> rows (normalize_fecha infer today df2))
            `sublist_of` (untouched <$> rows df)) as Hsub.
  { rewrite <-Heq. apply normalize_fecha_untouched. }
  split; [exact Hsub|]. apply sublist_length in Hsub. by rewrite !length_fmap in Hsub.
Qed.

End Rows.

Lemma clean_keeps_rows_witness :
  amounts_numeric joined_ex
  ∧ names_fillable Pandas3 true joined_ex = true
  ∧ ∃ out, clean by_value Pandas3 true run_time joined_ex = Ok out
           ∧ columns out = columns joined_ex
           ∧ (length (rows out) ≤ 6)%nat.
Proof.
  assert (amounts_numeric joined_ex) as H1 by (intros _; reflexivity).
  assert (names_fillable Pandas3 true joined_ex = true) as H2 by reflexivity.
  split; [exact H1|]. split; [exact H2|].
  destruct (clean_keeps_rows by_value Pandas3 true run_time joined_ex H1 H2)
    as (out & Hout & Hc & _ & Hl).
  exists out. split; [exact Hout|]. split; [exact Hc|exact Hl].
Defined.

(** ** The shape of the exported table *)

Lemma sets_lookup_ne c (r r' : row) c' : sets c r r' → c' ≠ c → r' !! c' = r !! c'.
Proof. intros [->|[v ->]] Hne; [done|]. by rewrite lookup_insert_ne. Qed.

Lemma sets_is_Some c (r r' : row) :
  sets c r r' → is_Some (r !! c) → ∀ c', is_Some (r' !! c') ↔ is_Some (r !! c').
Proof.
  intros [->|[v ->]] Hc c'; [done|].
  destruct (decide (c = c')) as [<-|Hne].
  - rewrite lookup_insert_eq. split; [done|by eexists].
  - by rewrite lookup_insert_ne.
Qed.

Lemma sets_trans c (r1 r2 r3 : row) : sets c r1 r2 → sets c r2 r3 → sets c r1 r3.
Proof.
  intros [->|[v ->]] [->|[v' ->]]; [by left|right; by eexists..|].
  right. exists v'. by rewrite insert_insert_eq.
Qed.

Lemma Forall2_sets_fmap c (g : row → row) (rs : list row) :
  (∀ r, sets c r (g r)) → Forall2 (sets c) rs (g <$> rs).
Proof. intros H. induction rs as [|r rs IH]; cbn; by constructor. Qed.

Lemma fillna_sets c v (rs : list row) : Forall2 (sets c) rs (fillna c v rs).
Proof.
  apply Forall2_sets_fmap. intros r. destruct (isnull _); [right; by eexists|by left].
Qed.

Lemma Forall2_sets_refl c (rs : list row) : Forall2 (sets c) rs rs.
Proof. apply Forall_Forall2_diag, Forall_forall. intros r _. by left. Qed.

Lemma fillna_inplace_sets pd c v (rs : list row) :
  Forall2 (sets c) rs (fillna_inplace pd c v rs).
Proof. destruct pd; [apply fillna_sets|apply Forall2_sets_refl]. Qed.

(** The three ways the amount stage can go. *)
Lemma repair_importe_cases pd df :
  (("importe" ∉ columns df) ∧ repair_importe pd df = Ok df)
  ∨ ("importe" ∈ columns df ∧ forallb numericb (series "importe" df) = false
     ∧ repair_importe pd df = Raise TypeError)
  ∨ ("importe" ∈ columns df ∧ forallb numericb (series "importe" df) = true
     ∧ repair_importe pd df =
         Ok (with_rows df
               (fillna_inplace pd "importe" (mean (neg_correct <$> series "importe" df))
                  ((λ r : row, if negative (cell "importe" r)
                               then <["importe" := Num 0]> r else r) <$> rows df)))).
Proof.
  destruct (decide ("importe" ∈ columns df)) as [Hc|Hc].
  2:{ left. split; [done|]. by apply repair_importe_absent. }
  right. destruct (forallb numericb (series "importe" df)) eqn:Hnum.
  - right. split; [done|]. split; [done|]. by apply repair_importe_unguarded.
  - left. split; [done|]. split; [done|]. by apply repair_importe_raises.
Qed.

Lemma repair_importe_sets pd df df1 :
  repair_importe pd df = Ok df1 →
  Forall2 (sets "importe") (rows df) (rows df1).
Proof.
  destruct (repair_importe_cases pd df) as [[_ ->]|[(_ & _ & ->)|(_ & _ & ->)]]; [|done|].
  - intros [= <-]. apply Forall2_sets_refl.
  - intros [= <-]. cbn [rows with_rows].
    eapply Forall2_compose; [|eapply Forall2_sets_fmap|apply fillna_inplace_sets].
    + intros r1 r2 r3. apply sets_trans.
    + intros r. cbn. destruct (negative _); [right; by eexists|by left].
Qed.

Lemma fill_nombre_sets pd text df out :
  fill_nombre pd text df = Ok out →
  Forall2 (sets "nombre_cliente") (rows df) (rows out).
Proof.
  intros H. destruct (decide ("nombre_cliente" ∈ columns df)) as [Hc|Hc].
  - rewrite (fill_nombre_rows _ _ _ _ Hc H). apply fillna_inplace_sets.
  - rewrite fill_nombre_absent in H by done. injection H as <-. apply Forall2_sets_refl.
Qed.

Lemma rectangular_sets c df df' :
  rectangular df → columns df' = columns df →
  c ∈ columns df ∨ df' = df →
  Forall2 (sets c) (rows df) (rows df') → rectangular df'.
Proof.
  intros Hrect Hcol [Hc| ->] HF; [|done].
  intros r' Hr' c'. rewrite Hcol.
  destruct (Forall2_elem_of_r _ _ _ _ HF Hr') as (r & Hr & Hs).
  rewrite <-(Hrect r Hr c'). apply (sets_is_Some c); [done|]. by apply (Hrect r Hr).
Qed.

Lemma repair_importe_rectangular pd df df1 :
  rectangular df → repair_importe pd df = Ok df1 → rectangular df1.
Proof.
  intros Hrect H1. apply (rectangular_sets "importe" df); try done.
  - by eapply repair_importe_columns.
  - destruct (repair_importe_cases pd df) as [[_ E]|[(_ & _ & E)|(Hc & _ & _)]];
      [|congruence|by left].
    right. congruence.
  - by eapply repair_importe_sets.
Qed.

Lemma fill_nombre_rectangular pd text df out :
  rectangular df → fill_nombre pd text df = Ok out → rectangular out.
Proof.
  intros Hrect H. apply (rectangular_sets "nombre_cliente" df); try done.
  - by eapply fill_nombre_columns.
  - destruct (decide ("nombre_cliente" ∈ columns df)) as [|Hc]; [by left|].
    right. rewrite fill_nombre_absent in H by done. by injection H.
  - by eapply fill_nombre_sets.
Qed.

(** A joined row has a cell for each column of the joined table and no
    other. *)
Lemma merge_rectangular L R k df : merge L R k = Ok df → rectangular df.
Proof.
  intros (_ & _ & _ & ->)%merge_ok r Hr n.
  cbn [rows columns] in *. unfold merge_rows in Hr.
  apply list_elem_of_bind in Hr as (s & Hr & _).
  apply list_elem_of_fmap in Hr as (c & -> & _).
  unfold join_row, merged_columns.
  rewrite lookup_union_is_Some, elem_of_app, <-!elem_of_dom, !dom_list_to_map_L.
  rewrite !elem_of_list_to_set, <-!list_fmap_compose. done.
Qed.

Section Shape.

Variable infer : list value → value → option Timestamp.

Lemma normalize_fecha_sets today df r' :
  r' ∈ rows (normalize_fecha infer today df) →
  ∃ r, r ∈ rows df ∧ sets "fecha_venta" r r'
       ∧ ("fecha_venta" ∈ columns df ∨ r' = r).
Proof.
  destruct (decide ("fecha_venta" ∈ columns df)) as [Hc|Hc].
  - intros Hr'. destruct (normalize_fecha_elem infer today df r' Hc Hr')
      as (r & t & Hr & -> & _).
    exists r. split; [done|]. split; [right; by eexists|by left].
  - rewrite normalize_fecha_absent by done. intros Hr'. exists r'.
    split; [done|]. split; [by left|by right].
Qed.

Lemma normalize_fecha_rectangular today df :
  rectangular df → rectangular (normalize_fecha infer today df).
Proof.
  intros Hrect r' Hr' c. rewrite normalize_fecha_columns.
  apply normalize_fecha_sets in Hr' as (r & Hr & Hs & [Hc| ->]); [|by apply Hrect].
  rewrite <-(Hrect r Hr c). apply (sets_is_Some "fecha_venta"); [done|].
  by apply (Hrect r Hr).
Qed.

Lemma clean_inv pd text today df out :
  clean infer pd text today df = Ok out →
  ∃ df1 df2, repair_importe pd df = Ok df1
         ∧ fill_nombre pd text df1 = Ok df2
         ∧ out = normalize_fecha infer today df2.
Proof.
  unfold clean. destruct (repair_importe pd df) as [df1|e]; [|done]. cbn [bind].
  destruct (fill_nombre pd text df1) as [df2|e] eqn:H2; [|done]. cbn [bind].
  intros [= <-]. by exists df1, df2.
Qed.

Lemma script_exported_inv w out :
  script infer w = Exported out →
  ∃ ventas_df clientes_df merged_df,
    ventas_csv w = Loaded ventas_df ∧ clientes_csv w = Loaded clientes_df
    ∧ merge ventas_df clientes_df "cliente_id" = Ok merged_df
    ∧ clean infer (lib w) (joined_names_text ventas_df clientes_df) (now w) merged_df = Ok out
    ∧ writable w = true.
Proof.
  intros H. pose proof (script_paths infer w) as Hp. rewrite H in Hp. exact Hp.
Qed.

(** Whatever the inputs, a table the script exports is rectangular:
    each of its rows has a cell for every column of the table and for
    nothing else. *)
Theorem exported_rectangular w out :
  script infer w = Exported out → rectangular out.
Proof.
  intros (V & C & m & _ & _ & Hm & Hclean & _)%script_exported_inv.
  apply clean_inv in Hclean as (df1 & df2 & H1 & H2 & ->).
  apply normalize_fecha_rectangular.
  eapply fill_nombre_rectangular; [|exact H2].
  eapply repair_importe_rectangular; [|exact H1]. by eapply merge_rectangular.
Qed.

(** Whatever the inputs, the script never exports a negative amount. *)
Theorem exported_amounts_not_negative w out :
  script infer w = Exported out →
  ∀ r q, r ∈ rows out → cell "importe" r = Num q → (0 <= q)%Q.
Proof.
  intros (V & C & m & _ & _ & Hm & Hclean & _)%script_exported_inv r q Hr Hq.
  apply clean_inv in Hclean as (df1 & df2 & H1 & H2 & ->).
  apply normalize_fecha_sets in Hr as (r2 & Hr2 & Hs2 & _).
  destruct (Forall2_elem_of_r _ _ _ _ (fill_nombre_sets _ _ _ _ H2) Hr2) as (r1 & Hr1 & Hs1).
  assert (cell "importe" r1 = Num q) as Hq1.
  { rewrite <-Hq. unfold cell.
    by rewrite (sets_lookup_ne _ _ _ "importe" Hs2), (sets_lookup_ne _ _ _ "importe" Hs1). }
  clear Hq Hr2 Hs2 Hs1 r r2.
  destruct (decide ("importe" ∈ columns m)) as [Hc|Hc].
  - destruct (forallb numericb (series "importe" m)) eqn:Hnum.
    2:{ by rewrite repair_importe_raises in H1. }
    destruct (repair_importe_rows (lib w) m Hc Hnum) as (df1' & H1' & _ & HF).
    rewrite H1 in H1'. injection H1' as <-.
    destruct (Forall2_elem_of_r _ _ _ _ HF Hr1) as (r0 & Hr0 & [E _]).
    rewrite Hq1 in E.
    pose proof (nums_corrected_nonneg (series "importe" m)) as Hpos.
    destruct (neg_correct_cases (cell "importe" r0))
      as [[_ En]|[(q0 & _ & _ & En)|[(q0 & _ & Hq0 & En)|[Hn _]]]].
    + rewrite En in E. destruct (lib w); cbn in E; [|done].
      destruct (arith_mean _) as [mu|] eqn:Emu; [|done].
      injection E as ->. by eapply arith_mean_nonneg.
    + rewrite En in E. destruct (lib w); cbn in E; injection E as ->; apply Qle_refl.
    + rewrite En in E. destruct (lib w); cbn in E; by injection E as ->.
    + rewrite forallb_forall in Hnum.
      rewrite Hnum in Hn; [done|]. apply list_elem_of_In.
      by apply (list_elem_of_fmap_2 (cell "importe")).
  - rewrite repair_importe_absent in H1 by done. injection H1 as <-.
    pose proof (merge_rectangular _ _ _ _ Hm r1 Hr1 "importe") as Hrect.
    unfold cell in Hq1. destruct (r1 !! "importe") as [v|] eqn:E; [|done].
    destruct Hc. apply Hrect. by eexists.
Qed.

End Shape.

Lemma exported_rectangular_witness :
  script by_value (on Pandas3 world_ex) = Exported cleaned_ex3 ∧ rectangular cleaned_ex3.
Proof.
  assert (script by_value (on Pandas3 world_ex) = Exported cleaned_ex3) as H
    by (vm_compute; reflexivity).
  split; [exact H|]. exact (exported_rectangular by_value _ cleaned_ex3 H).
Defined.

Lemma exported_amounts_not_negative_witness :
  script by_value (on Pandas3 world_ex) = Exported cleaned_ex3
  ∧ ∀ r q, r ∈ rows cleaned_ex3 → cell "importe" r = Num q → (0 <= q)%Q.
Proof.
  assert (script by_value (on Pandas3 world_ex) = Exported cleaned_ex3) as H
    by (vm_compute; reflexivity).
  split; [exact H|].
  exact (exported_amounts_not_negative by_value _ cleaned_ex3 H).
Defined.

(** ** Cleaning a cleaned table *)

Lemma nums_corrected_empty (s : list value) :
  forallb numericb s = true → nums (neg_correct <$> s) = [] → ∀ v, v ∈ s → v = NaN.
Proof.
  intros Hnum Hnil v Hv. destruct v as [|q|x|t]; [done|..];
    (destruct (nums_corrected_nonempty s _ Hv); [|done..];
     rewrite forallb_forall in Hnum; by apply Hnum, list_elem_of_In).
Qed.

(** After the amount stage the amounts are settled: before pandas 3.0
    all present and at least 0, or (when there was none to take a mean
    of) all missing; from 3.0 on each of them missing or at least 0. *)
Lemma repaired_amounts pd df df1 :
  "importe" ∈ columns df →
  repair_importe pd df = Ok df1 →
  amounts_settled pd (rows df1).
Proof.
  intros Hc. destruct (repair_importe_cases pd df) as [[? _]|[(_ & _ & ->)|(_ & Hnum & ->)]];
    [done..|]. intros [= <-]. cbn [rows with_rows].
  pose proof (nums_corrected_nonneg (series "importe" df)) as Hpos.
  assert (∀ r, r ∈ rows df →
            neg_correct (cell "importe" r) = NaN
            ∨ ∃ q, neg_correct (cell "importe" r) = Num q ∧ (0 <= q)%Q) as Hcorr.
  { intros r Hr. destruct (neg_correct_cases (cell "importe" r))
      as [[_ ->]|[(q0 & _ & _ & ->)|[(q0 & _ & Hq0 & ->)|[Hn _]]]].
    - by left.
    - right. exists 0%Q. split; [done|apply Qle_refl].
    - right. by exists q0.
    - rewrite forallb_forall in Hnum. rewrite Hnum in Hn; [done|].
      apply list_elem_of_In. by apply (list_elem_of_fmap_2 (cell "importe")). }
  assert (∀ r, cell "importe" (if negative (cell "importe" r)
                               then <["importe" := Num 0]> r else r)
               = neg_correct (cell "importe" r)) as Hz.
  { intros r. unfold neg_correct. destruct (negative _); [apply cell_insert|done]. }
  destruct pd; cbn [fillna_inplace amounts_settled].
  2:{ intros r1 (r0 & -> & Hr0)%list_elem_of_fmap. rewrite Hz. by apply Hcorr. }
  rewrite mean_arith_mean.
  destruct (arith_mean (nums (neg_correct <$> series "importe" df))) as [mu|] eqn:Emu.
  - left. intros r1 Hr1. unfold fillna in Hr1.
    apply list_elem_of_fmap in Hr1 as (z & -> & Hz').
    apply list_elem_of_fmap in Hz' as (r0 & -> & Hr0). rewrite Hz.
    destruct (Hcorr r0 Hr0) as [E|(q & E & Hq)]; rewrite E; cbn [isnull].
    + rewrite cell_insert. exists mu. split; [done|]. by eapply arith_mean_nonneg.
    + rewrite Hz, E. by exists q.
  - right. intros r1 Hr1. unfold fillna in Hr1.
    apply list_elem_of_fmap in Hr1 as (z & -> & Hz').
    apply list_elem_of_fmap in Hz' as (r0 & -> & Hr0). rewrite Hz.
    assert (nums (neg_correct <$> series "importe" df) = []) as Hnil
      by (unfold arith_mean in Emu; by destruct (nums _)).
    rewrite (nums_corrected_empty _ Hnum Hnil (cell "importe" r0))
      by (by apply (list_elem_of_fmap_2 (cell "importe"))).
    cbn. by rewrite lookup_insert_eq.
Qed.

(** A table whose amounts are settled goes through the amount stage
    unchanged. *)
Lemma repair_importe_fixed pd df :
  amounts_settled pd (rows df) →
  repair_importe pd df = Ok df.
Proof.
  intros Hrows. destruct (decide ("importe" ∈ columns df)) as [Hc|Hc].
  2:{ by apply repair_importe_absent. }
  assert (∀ r, r ∈ rows df → negative (cell "importe" r) = false
                             ∧ numericb (cell "importe" r) = true) as Hcells.
  { intros r Hr. destruct pd; cbn in Hrows.
    - destruct Hrows as [H|H].
      + destruct (H r Hr) as (q & -> & Hq). split; [by apply negative_ge|done].
      + unfold cell. by rewrite (H r Hr).
    - destruct (Hrows r Hr) as [->|(q & -> & Hq)]; [done|].
      split; [by apply negative_ge|done]. }
  assert (forallb numericb (series "importe" df) = true) as Hnum.
  { apply forallb_forall. intros v (r & -> & Hr)%list_elem_of_In%list_elem_of_fmap.
    by apply Hcells. }
  rewrite repair_importe_unguarded by done. f_equal. apply df_eq; [done|].
  cbn [rows with_rows].
  assert ((λ r : row, if negative (cell "importe" r) then <["importe" := Num 0]> r else r)
            <$> rows df = rows df) as ->.
  { rewrite <-(list_fmap_id (rows df)) at 2. apply list_fmap_ext.
    intros _ r Hr%list_elem_of_lookup_2. cbn. by rewrite (proj1 (Hcells r Hr)). }
  destruct pd; cbn [fillna_inplace]; [|done]. cbn in Hrows.
  destruct Hrows as [H|H].
  - apply fillna_no_null. apply any_null_false.
    intros v (r & -> & Hr)%list_elem_of_fmap. by destruct (H r Hr) as (q & -> & _).
  - assert (mean (neg_correct <$> series "importe" df) = NaN) as ->.
    { rewrite mean_arith_mean, nums_all_missing; [done|].
      intros v (r & -> & Hr)%list_elem_of_fmap. unfold cell. by rewrite (H r Hr). }
    unfold fillna. rewrite <-(list_fmap_id (rows df)) at 2. apply list_fmap_ext.
    intros _ r Hr%list_elem_of_lookup_2. cbn.
    destruct (isnull _); [|done]. by apply insert_id, H.
Qed.

(** From pandas 3.0 on the name stage, when it returns, returns the
    frame it was given. *)
Lemma fill_nombre_no_write text df out :
  fill_nombre Pandas3 text df = Ok out → out = df.
Proof.
  unfold fill_nombre. destruct (_ && _); [|by intros [= <-]].
  destruct text; [|done]. intros [= <-]. apply with_rows_rows.
Qed.

Lemma any_null_true (s : list value) :
  any_null s = true ↔ ∃ v, v ∈ s ∧ isnull v = true.
Proof.
  unfold any_null. rewrite existsb_exists. split.
  - intros (v & Hv%list_elem_of_In & E). by exists v.
  - intros (v & Hv%list_elem_of_In & E). by exists v.
Qed.

Section Again.

Variable infer : list value → value → option Timestamp.

(** Cleaning a table that came out of the cleaning (on the same day,
    with the same release of pandas) changes nothing: no amount is
    corrected or imputed again, no name is filled, no row is dropped, no
    date is rewritten. *)
Theorem clean_idempotent pd text today df out :
  clean infer pd text today df = Ok out → clean infer pd text today out = Ok out.
Proof.
  intros (df1 & df2 & H1 & H2 & ->)%clean_inv.
  set (out := normalize_fecha infer today df2).
  assert (∀ r, r ∈ rows out →
            ∃ r1, r1 ∈ rows df1 ∧ r !! "importe" = r1 !! "importe"
                  ∧ ∃ r2, r2 ∈ rows df2
                          ∧ r !! "nombre_cliente" = r2 !! "nombre_cliente") as Horigin.
  { intros r Hr. apply normalize_fecha_sets in Hr as (r2 & Hr2 & Hs2 & _).
    destruct (Forall2_elem_of_r _ _ _ _ (fill_nombre_sets _ _ _ _ H2) Hr2) as (r1 & Hr1 & Hs1).
    exists r1. split; [done|]. split.
    - by rewrite (sets_lookup_ne _ _ _ "importe" Hs2), (sets_lookup_ne _ _ _ "importe" Hs1).
    - exists r2. split; [done|]. by rewrite (sets_lookup_ne _ _ _ "nombre_cliente" Hs2). }
  assert (columns out = columns df) as Hcol.
  { unfold out. by rewrite normalize_fecha_columns, (fill_nombre_columns _ _ _ _ H2),
      (repair_importe_columns _ _ _ H1). }
  assert (repair_importe pd out = Ok out) as Ha.
  { destruct (decide ("importe" ∈ columns df)) as [Hc|Hc].
    2:{ apply repair_importe_absent. by rewrite Hcol. }
    apply repair_importe_fixed.
    pose proof (repaired_amounts pd df df1 Hc H1) as Hset.
    destruct pd; cbn in Hset |- *.
    - destruct Hset as [H|H]; [left|right]; intros r Hr;
        destruct (Horigin r Hr) as (r1 & Hr1 & E & _).
      + unfold cell. rewrite E. apply (H r1 Hr1).
      + rewrite E. apply (H r1 Hr1).
    - intros r Hr. destruct (Horigin r Hr) as (r1 & Hr1 & E & _).
      unfold cell. rewrite E. apply (Hset r1 Hr1). }
  assert (fill_nombre pd text out = Ok out) as Hb.
  { destruct (decide ("nombre_cliente" ∈ columns df)) as [Hc|Hc].
    2:{ apply fill_nombre_absent. by rewrite Hcol. }
    assert ("nombre_cliente" ∈ columns df1) as Hc1
      by (by rewrite (repair_importe_columns _ _ _ H1)).
    unfold fill_nombre. rewrite bool_decide_eq_true_2 by (by rewrite Hcol). cbn [andb].
    destruct pd.
    - assert (any_null (series "nombre_cliente" out) = false) as ->; [|done].
      apply any_null_false. intros v (r & -> & Hr)%list_elem_of_fmap.
      destruct (Horigin r Hr) as (_ & _ & _ & r2 & Hr2 & E).
      unfold cell. rewrite E. fold (cell "nombre_cliente" r2).
      destruct (Forall2_elem_of_r _ _ _ _ (fill_nombre_updates _ _ _ _ Hc1 H2) Hr2)
        as (r1 & _ & [-> _]).
      cbn. by destruct (cell "nombre_cliente" r1).
    - destruct (any_null (series "nombre_cliente" out)) eqn:E; [|done].
      cbn [fillna_inplace]. rewrite with_rows_rows.
      destruct text; [done|]. exfalso.
      apply any_null_true in E as (v & (r & -> & Hr)%list_elem_of_fmap & Hv).
      destruct (Horigin r Hr) as (_ & _ & _ & r2 & Hr2 & E).
      pose proof (fill_nombre_fillable _ _ _ _ H2) as Hf.
      rewrite (fill_nombre_no_write _ _ _ H2) in Hr2.
      cbn in Hf. rewrite bool_decide_eq_true_2 in Hf by done. cbn in Hf.
      apply negb_true_iff in Hf. rewrite any_null_false in Hf.
      assert (cell "nombre_cliente" r = cell "nombre_cliente" r2) as Ec
        by (unfold cell; by rewrite E).
      rewrite Ec, (Hf (cell "nombre_cliente" r2)) in Hv; [done|].
      by apply list_elem_of_fmap_2. }
  unfold clean. rewrite Ha. cbn [bind]. rewrite Hb. cbn [bind]. unfold out.
  by rewrite normalize_fecha_idempotent.
Qed.

End Again.

Lemma clean_idempotent_witness :
  clean by_value Pandas3 true run_time joined_ex = Ok cleaned_ex3
  ∧ clean by_value Pandas3 true run_time cleaned_ex3 = Ok cleaned_ex3.
Proof.
  assert (clean by_value Pandas3 true run_time joined_ex = Ok cleaned_ex3) as H
    by (vm_compute; reflexivity).
  split; [exact H|].
  exact (clean_idempotent by_value Pandas3 true run_time joined_ex cleaned_ex3 H).
Defined.

(** ** How the script ends *)



Section Exits.

Variable infer : list value → value → option Timestamp.


End Exits.

(** ** The size of the join *)

Lemma ts_eqb_eq a b : ts_eqb a b = true ↔ a = b.
Proof.
  destruct a as [y m d n], b as [y' m' d' n']. split.
  - intros H. ts_order. by subst.
  - intros [= -> -> -> ->]. unfold ts_eqb, ts_compare. cbn. by rewrite !Z.compare_refl.
Qed.

Lemma value_eqb_sym a b : value_eqb a b = true → value_eqb b a = true.
Proof.
  destruct a, b; cbn; try done.
  - rewrite !Qeq_bool_iff. apply Qeq_sym.
  - rewrite !String.eqb_eq. by intros ->.
  - rewrite !ts_eqb_eq. by intros ->.
Qed.

Lemma value_eqb_trans a b c :
  value_eqb a b = true → value_eqb b c = true → value_eqb a c = true.
Proof.
  destruct a, b, c; cbn; try done.
  - rewrite !Qeq_bool_iff. apply Qeq_trans.
  - rewrite !String.eqb_eq. by intros -> ->.
  - rewrite !ts_eqb_eq. by intros -> ->.
Qed.

Lemma length_matches_from k (s : row) (R : list row) j :
  (length (matches_from k s j R) ≤ length R)%nat.
Proof.
  revert j. induction R as [|c R IH]; intros j; cbn; [lia|].
  destruct (key_match k s c); cbn; specialize (IH (S j)); lia.
Qed.

Lemma length_merge_index_from k (L R : list row) i :
  (length (merge_index_from k i L R) ≤ length L * length R)%nat.
Proof.
  revert i. induction L as [|s L IH]; intros i; cbn; [lia|].
  rewrite length_app, length_fmap.
  pose proof (length_matches_from k s R 0). specialize (IH (S i)). lia.
Qed.

Lemma NoDup_all_equal_length {A} (l : list A) :
  NoDup l → (∀ x y, x ∈ l → y ∈ l → x = y) → (length l ≤ 1)%nat.
Proof.
  intros Hnd Heq. destruct l as [|x [|y l]]; cbn; [lia..|].
  exfalso. apply NoDup_cons in Hnd as [Hx _]. apply Hx.
  rewrite (Heq x y); [left|left|right; left].
Qed.

(** With pairwise different identifiers on the right, a left row matches
    at most one right row. *)
Lemma unique_keys_matches k (s : row) (R : list row) :
  unique_keys k R → (length (matches_from k s 0 R) ≤ 1)%nat.
Proof.
  intros Hu. apply NoDup_all_equal_length; [apply NoDup_matches_from|].
  intros j1 j2 (_ & c1 & H1 & M1)%elem_of_matches_from (_ & c2 & H2 & M2)%elem_of_matches_from.
  rewrite Nat.sub_0_r in *. apply (Hu j1 j2 c1 c2 H1 H2).
  unfold key_match in *. eapply value_eqb_trans; [|exact M2]. by apply value_eqb_sym.
Qed.

Lemma length_merge_index_from_unique k (L R : list row) i :
  unique_keys k R → (length (merge_index_from k i L R) ≤ length L)%nat.
Proof.
  intros Hu. revert i. induction L as [|s L IH]; intros i; cbn; [lia|].
  rewrite length_app, length_fmap.
  pose proof (unique_keys_matches k s R Hu). specialize (IH (S i)). lia.
Qed.

(** The join has at most one row per pair of input rows, so none when
    either input is empty; and when the customer identifiers of
    clientes.csv are pairwise different it has at most one row per sale:
    only a repeated customer identifier multiplies sales. *)
Theorem join_size ventas_df clientes_df df :
  merge ventas_df clientes_df "cliente_id" = Ok df →
  (length (rows df) ≤ length (rows ventas_df) * length (rows clientes_df))%nat
  ∧ (rows ventas_df = [] ∨ rows clientes_df = [] → rows df = [])
  ∧ (unique_keys "cliente_id" (rows clientes_df) →
     (length (rows df) ≤ length (rows ventas_df))%nat).
Proof.
  intros (_ & _ & _ & ->)%merge_ok. cbn [rows].
  assert (length (merge_rows "cliente_id" ventas_df clientes_df)
          = length (merge_index "cliente_id" (rows ventas_df) (rows clientes_df))) as Hlen.
  { unfold merge_rows, merge_index. eapply Forall2_length, merge_rows_index. }
  pose proof (length_merge_index_from "cliente_id" (rows ventas_df) (rows clientes_df) 0)
    as Hprod.
  split; [by rewrite Hlen|]. split.
  - intros Hempty. apply length_zero_iff_nil. rewrite Hlen.
    unfold merge_index. destruct Hempty as [E|E]; rewrite E in Hprod |- *;
      cbn in Hprod |- *; lia.
  - intros Hu. rewrite Hlen. by apply length_merge_index_from_unique.
Qed.

Lemma join_size_witness :
  merge ventas_ex clientes_ex "cliente_id" = Ok joined_ex
  ∧ (length (rows joined_ex) ≤ length (rows ventas_ex) * length (rows clientes_ex))%nat.
Proof.
  assert (merge ventas_ex clientes_ex "cliente_id" = Ok joined_ex) as H
    by (vm_compute; reflexivity).
  split; [exact H|]. exact (proj1 (join_size ventas_ex clientes_ex joined_ex H)).
Defined.

(** ** The columns of the joined table *)

Ltac no_suffix H n :=
  do 16 (destruct n as [|? n]; [by vm_compute in H|]; cbv [String.append] in H;
         fold String.append in H; try discriminate H; injection H as _ H).

(** None of the three column names the cleaning looks for can come
    from a suffixed name. *)
Lemma cleaned_names_not_suffixed n c :
  c = "importe"%string ∨ c = "nombre_cliente"%string ∨ c = "fecha_venta"%string →
  n +:+ "_x" ≠ c ∧ n +:+ "_y" ≠ c.
Proof.
  intros [ -> | [ -> | -> ] ]; split; intros H; no_suffix H n.
Qed.

(** A column named importe, nombre_cliente or fecha_venta is a column of
    the joined table exactly when one input has it and the other has
    not.  When both inputs have it the join renames both copies, the
    joined table has no column of that name, and the stage that looks
    for it does nothing. *)
Theorem joined_has_column ventas_df clientes_df df c :
  merge ventas_df clientes_df "cliente_id" = Ok df →
  c = "importe"%string ∨ c = "nombre_cliente"%string ∨ c = "fecha_venta"%string →
  (c ∈ columns df ↔
     (c ∈ columns ventas_df ∧ c ∉ columns clientes_df)
     ∨ ((c ∉ columns ventas_df) ∧ c ∈ columns clientes_df))
  ∧ (c ∈ columns ventas_df → c ∈ columns clientes_df →
     (c = "importe"%string → ∀ pd, repair_importe pd df = Ok df)
     ∧ (c = "nombre_cliente"%string → ∀ pd text, fill_nombre pd text df = Ok df)
     ∧ (c = "fecha_venta"%string → ∀ infer today, normalize_fecha infer today df = df)).
Proof.
  intros Hm Hc.
  assert (c ≠ "cliente_id"%string) as Hk by (by destruct Hc as [ -> | [ -> | -> ] ]).
  assert (c ∈ columns df ↔
     (c ∈ columns ventas_df ∧ c ∉ columns clientes_df)
     ∨ ((c ∉ columns ventas_df) ∧ c ∈ columns clientes_df)) as Hiff.
  { apply merge_ok in Hm as (_ & _ & _ & ->).
    cbn [columns]. unfold merged_columns, right_columns.
    rewrite elem_of_app, !list_elem_of_fmap. split.
    - intros [(n & E & Hn)|(n & E & [Hne Hn]%list_elem_of_filter)].
      + left. unfold left_name in E. destruct (decide _) as [[_ HnC]|Hno].
        * symmetry in E. by apply (cleaned_names_not_suffixed n c Hc) in E.
        * subst n. split; [done|]. intros HcC. by apply Hno.
      + right. unfold right_name in E. destruct (decide _) as [HnV|HnV].
        * symmetry in E. by apply (cleaned_names_not_suffixed n c Hc) in E.
        * by subst n.
    - intros [[HV HC]|[HV HC]].
      + left. exists c. split; [|done]. unfold left_name.
        rewrite decide_False; [done|]. by intros [_ ?].
      + right. exists c. split.
        * unfold right_name. by rewrite decide_False.
        * by apply list_elem_of_filter. }
  split; [exact Hiff|]. intros HV HC.
  assert (c ∉ columns df) as Hno by (rewrite Hiff; tauto).
  repeat split.
  - intros -> pd. by apply repair_importe_absent.
  - intros -> pd text. by apply fill_nombre_absent.
  - intros -> infer today. by apply normalize_fecha_absent.
Qed.

Lemma joined_has_column_witness :
  merge ventas_ex clientes_ex "cliente_id" = Ok joined_ex
  ∧ ("importe" ∈ columns joined_ex ↔
       ("importe" ∈ columns ventas_ex ∧ "importe" ∉ columns clientes_ex)
       ∨ (("importe" ∉ columns ventas_ex) ∧ "importe" ∈ columns clientes_ex)).
Proof.
  assert (merge ventas_ex clientes_ex "cliente_id" = Ok joined_ex) as H
    by (vm_compute; reflexivity).
  split; [exact H|].
  exact (proj1 (joined_has_column ventas_ex clientes_ex joined_ex "importe" H
                  (or_introl eq_refl))).
Defined.

(** ** What the script reports *)

Lemma count_true_filter {A} (p : A → bool) (l : list A) :
  count_true (p <$> l) = length (filter (λ x, p x = true) l).
Proof.
  unfold count_true. induction l as [|x l IH]; [done|]. cbn [fmap list_fmap].
  rewrite !filter_cons. destruct (p x) eqn:E.
  - rewrite !decide_True by done. cbn. by rewrite IH.
  - rewrite !decide_False by congruence. done.
Qed.

Lemma length_three_way {A} (P Q R : A → Prop)
    `{!∀ x, Decision (P x)} `{!∀ x, Decision (Q x)} `{!∀ x, Decision (R x)}
    (l : list A) :
  (∀ x, x ∈ l → (P x ∧ ¬ Q x ∧ ¬ R x) ∨ (¬ P x ∧ Q x ∧ ¬ R x) ∨ (¬ P x ∧ ¬ Q x ∧ R x)) →
  length l = (length (filter P l) + length (filter Q l) + length (filter R l))%nat.
Proof.
  induction l as [|x l IH]; intros Hx; [done|].
  rewrite !filter_cons. specialize (IH (λ y Hy, Hx y (list_elem_of_further _ _ _ Hy))).
  destruct (Hx x (list_elem_of_here _ _)) as [(HP & HQ & HR)|[(HP & HQ & HR)|(HP & HQ & HR)]].
  - rewrite decide_True, !decide_False by done. cbn. lia.
  - rewrite decide_False, decide_True, decide_False by done. cbn. lia.
  - rewrite !decide_False, decide_True by done. cbn. lia.
Qed.

Section Report.

Variable infer : list value → value → option Timestamp.

Lemma parsed_frame_rows df :
  rows (parsed_frame infer df)
  = (λ r, <["fecha_venta" := parsed infer (series "fecha_venta" df) r]> r) <$> rows df.
Proof.
  unfold parsed_frame, to_datetime.
  by rewrite (set_column_map "fecha_venta" (parse_value infer (series "fecha_venta" df))).
Qed.

Lemma cell_parsed_row s (r : row) :
  cell "fecha_venta" (<["fecha_venta" := parsed infer s r]> r) = parsed infer s r.
Proof. apply cell_insert. Qed.

Lemma invalid_dates_count_filter df :
  invalid_dates_count infer df
  = length (filter (λ r, isnull (parsed infer (series "fecha_venta" df) r) = true) (rows df)).
Proof.
  unfold invalid_dates_count, null_count, series. rewrite parsed_frame_rows.
  rewrite <-!list_fmap_compose, count_true_filter.
  apply (f_equal length), list_filter_iff. intros r. cbn. by rewrite cell_parsed_row.
Qed.

Lemma valid_frame_rows df :
  rows (valid_frame infer df)
  = (λ r, <["fecha_venta" := parsed infer (series "fecha_venta" df) r]> r)
      <$> filter (λ r, isnull (parsed infer (series "fecha_venta" df) r) = false) (rows df).
Proof.
  unfold valid_frame. cbn zeta.
  assert (dropna "fecha_venta" (rows (parsed_frame infer df))
          = (λ r, <["fecha_venta" := parsed infer (series "fecha_venta" df) r]> r)
              <$> filter (λ r, isnull (parsed infer (series "fecha_venta" df) r) = false) (rows df)) as Hdrop.
  { unfold dropna. rewrite parsed_frame_rows, filter_fmap_comm. f_equal.
    apply list_filter_iff. intros r. by rewrite cell_parsed_row. }
  destruct (any_null _) eqn:E; [exact Hdrop|].
  rewrite <-Hdrop. unfold dropna. symmetry. apply filter_all. intros r Hr.
  rewrite any_null_false in E. apply E. by apply (list_elem_of_fmap_2 (cell "fecha_venta")).
Qed.

Lemma out_of_range_dates_count_filter today df :
  out_of_range_dates_count infer today df
  = length (filter (λ r, lt_ts min_date (parsed infer (series "fecha_venta" df) r)
                         || gt_ts today (parsed infer (series "fecha_venta" df) r) = true)
              (rows df)).
Proof.
  unfold out_of_range_dates_count. cbn zeta. unfold series.
  rewrite <-!list_fmap_compose, zip_with_fmap_both, select_fmap.
  rewrite valid_frame_rows, filter_fmap_comm, length_fmap, list_filter_filter.
  apply (f_equal length), list_filter_iff. intros r. cbn. rewrite cell_parsed_row.
  split; [tauto|]. intros H. split; [done|]. by destruct (parsed infer _ r).
Qed.

(** Every row of the joined table is accounted for: it is exported, or
    counted among the rows dropped for an unparsable date (line 82), or
    counted among those dropped for a date out of range (line 95), and
    never twice. *)
Theorem dropped_rows_accounted today df :
  "fecha_venta" ∈ columns df →
  length (rows df)
  = (length (rows (normalize_fecha infer today df))
     + invalid_dates_count infer df
     + out_of_range_dates_count infer today df)%nat.
Proof.
  intros Hc. rewrite normalize_fecha_rows by done. unfold spec_normalize. cbn zeta.
  fold (series "fecha_venta" df).
  rewrite length_fmap, invalid_dates_count_filter, out_of_range_dates_count_filter.
  apply length_three_way. intros r _. unfold parsed.
  destruct (parse_value_cases infer (series "fecha_venta" df) (cell "fecha_venta" r))
    as [E|(t & E & _)];
    rewrite E; cbn.
  - naive_solver.
  - destruct (ts_ltb t min_date), (ts_gtb t today); cbn; naive_solver.
Qed.

End Report.

Lemma dropped_rows_accounted_witness :
  "fecha_venta" ∈ columns joined_ex
  ∧ invalid_dates_count by_value joined_ex = 1%nat
  ∧ out_of_range_dates_count by_value run_time joined_ex = 2%nat
  ∧ length (rows (normalize_fecha by_value run_time joined_ex)) = 3%nat.
Proof.
  assert ("fecha_venta" ∈ columns joined_ex) as H1 by in_columns.
  assert (invalid_dates_count by_value joined_ex = 1%nat) as H2
    by (vm_compute; reflexivity).
  assert (out_of_range_dates_count by_value run_time joined_ex = 2%nat) as H3
    by (vm_compute; reflexivity).
  split; [exact H1|]. split; [exact H2|]. split; [exact H3|].
  pose proof (dropped_rows_accounted by_value run_time joined_ex H1) as H.
  rewrite H2, H3 in H. cbn [length rows joined_ex] in H. lia.
Defined.

Lemma count_true_none {A} (p : A → bool) (l : list A) :
  (∀ x, x ∈ l → p x = false) → count_true (p <$> l) = 0%nat.
Proof.
  intros H. rewrite count_true_filter, filter_nothing; [done|].
  intros x Hx. by rewrite (H x Hx).
Qed.

Lemma count_true_all {A} (p : A → bool) (l : list A) :
  (∀ x, x ∈ l → p x = true) → count_true (p <$> l) = length l.
Proof. intros H. by rewrite count_true_filter, filter_all. Qed.

Lemma elem_of_null_counts df c n :
  (c, n) ∈ null_counts df ↔ c ∈ columns df ∧ n = null_count (series c df).
Proof.
  unfold null_counts. rewrite list_elem_of_fmap. split.
  - by intros (c' & [= -> ->] & Hc).
  - intros [Hc ->]. by exists c.
Qed.

Section FinalReport.

Variable infer : list value → value → option Timestamp.

(** Where the cells of a cleaned row come from. *)
Lemma clean_origin pd text today df out :
  clean infer pd text today df = Ok out →
  ∃ df1 df2, repair_importe pd df = Ok df1 ∧ fill_nombre pd text df1 = Ok df2
    ∧ columns out = columns df
    ∧ ∀ r, r ∈ rows out →
        ∃ r1 r2, r1 ∈ rows df1 ∧ r2 ∈ rows df2
                 ∧ r !! "importe" = r1 !! "importe"
                 ∧ r !! "nombre_cliente" = r2 !! "nombre_cliente".
Proof.
  intros (df1 & df2 & H1 & H2 & ->)%clean_inv. exists df1, df2.
  split; [done|]. split; [done|]. split.
  { by rewrite normalize_fecha_columns, (fill_nombre_columns _ _ _ _ H2),
      (repair_importe_columns _ _ _ H1). }
  intros r Hr. apply normalize_fecha_sets in Hr as (r2 & Hr2 & Hs2 & _).
  destruct (Forall2_elem_of_r _ _ _ _ (fill_nombre_sets _ _ _ _ H2) Hr2) as (r1 & Hr1 & Hs1).
  exists r1, r2. repeat split; try done.
  - by rewrite (sets_lookup_ne _ _ _ "importe" Hs2), (sets_lookup_ne _ _ _ "importe" Hs1).
  - by rewrite (sets_lookup_ne _ _ _ "nombre_cliente" Hs2).
Qed.

(** The final report of missing values (line 109) shows 0 for the sale
    date, under every release of pandas.  Before 3.0 it also shows 0 for
    the customer name, and for the amount either 0 or the number of rows
    of the table: the amounts are then never partly missing. *)
Theorem final_null_counts pd text today df out :
  clean infer pd text today df = Ok out →
  (∀ n, ("fecha_venta"%string, n) ∈ null_counts out → n = 0%nat)
  ∧ (pd = Pandas2 →
     (∀ n, ("nombre_cliente"%string, n) ∈ null_counts out → n = 0%nat)
     ∧ (∀ n, ("importe"%string, n) ∈ null_counts out →
             n = 0%nat ∨ n = length (rows out))).
Proof.
  intros Hclean.
  destruct (clean_origin pd text today df out Hclean) as (df1 & df2 & H1 & H2 & Hcol & Horigin).
  pose proof (repair_importe_columns _ _ _ H1) as Hcol1.
  split; [|intros ->; split].
  - intros n [Hc ->]%elem_of_null_counts. rewrite Hcol in Hc.
    unfold null_count, series. rewrite <-list_fmap_compose.
    apply count_true_none. intros r Hr. cbn.
    apply clean_inv in Hclean as (df1' & df2' & _ & H2' & ->).
    assert ("fecha_venta" ∈ columns df2') as Hc'.
    { rewrite <-(normalize_fecha_columns infer today). by rewrite Hcol. }
    destruct (normalize_fecha_elem infer today _ r Hc' Hr) as (r0 & t & _ & -> & _).
    by rewrite cell_insert.
  - intros n [Hc ->]%elem_of_null_counts. rewrite Hcol in Hc.
    unfold null_count, series. rewrite <-list_fmap_compose.
    apply count_true_none. intros r Hr. cbn.
    destruct (Horigin r Hr) as (_ & r2 & _ & Hr2 & _ & E).
    unfold cell. rewrite E. fold (cell "nombre_cliente" r2).
    assert ("nombre_cliente" ∈ columns df1) as Hc1 by (by rewrite Hcol1).
    destruct (Forall2_elem_of_r _ _ _ _ (fill_nombre_updates _ _ _ _ Hc1 H2) Hr2)
      as (r1 & _ & [-> _]).
    cbn. by destruct (cell "nombre_cliente" r1).
  - intros n [Hc ->]%elem_of_null_counts. rewrite Hcol in Hc.
    unfold null_count, series. rewrite <-list_fmap_compose.
    destruct (repaired_amounts Pandas2 df df1 Hc H1) as [H|H].
    + left. apply count_true_none. intros r Hr. cbn.
      destruct (Horigin r Hr) as (r1 & _ & Hr1 & _ & E & _).
      unfold cell. rewrite E. fold (cell "importe" r1).
      by destruct (H r1 Hr1) as (q & -> & _).
    + right. apply count_true_all. intros r Hr. cbn.
      destruct (Horigin r Hr) as (r1 & _ & Hr1 & _ & E & _).
      unfold cell. by rewrite E, (H r1 Hr1).
Qed.

(** With no sale to join, and the join key in both tables, the script
    does not fail: it exports the joined columns and no row. *)
Theorem no_sales_exported w ventas_df clientes_df :
  ventas_csv w = Loaded ventas_df →
  clientes_csv w = Loaded clientes_df →
  rows ventas_df = [] →
  "cliente_id" ∈ columns ventas_df →
  "cliente_id" ∈ columns clientes_df →
  script infer w =
    if writable w
    then Exported (mkDF (merged_columns "cliente_id" ventas_df clientes_df) [])
    else ExportError.
Proof.
  intros Hv Hcl Hempty HkV HkC. unfold script. rewrite Hv, Hcl.
  unfold merge. rewrite decide_True by done.
  unfold keys_comparable. rewrite Hempty.
  unfold merge_rows. rewrite Hempty. cbn [mbind list_bind].
  set (m := mkDF _ []).
  set (text := joined_names_text ventas_df clientes_df).
  assert (amounts_numeric m) as Hnum by (by intros _).
  assert (names_fillable (lib w) text m = true) as Hfill.
  { unfold names_fillable. destruct (lib w); [done|].
    cbn. by rewrite andb_false_r, orb_true_r. }
  destruct (clean_numeric infer _ _ (now w) m Hnum Hfill) as (df1 & df2 & H1 & H2 & ->).
  destruct (repair_importe_frame (lib w) m Hnum) as (df1' & H1' & Hcol1 & HF1).
  rewrite H1 in H1'. injection H1' as <-.
  apply Forall2_nil_inv_l in HF1.
  assert (rows df2 = []) as Hr2.
  { pose proof (fill_nombre_frame _ _ _ _ H2) as HF2. rewrite HF1 in HF2.
    by apply Forall2_nil_inv_l in HF2. }
  assert (rows (normalize_fecha infer (now w) df2) = []) as Hr3.
  { pose proof (normalize_fecha_untouched infer (now w) df2) as Hsub.
    rewrite Hr2 in Hsub. apply sublist_nil_r in Hsub. by apply fmap_nil_inv in Hsub. }
  assert (normalize_fecha infer (now w) df2 = m) as Hout.
  { apply df_eq; [|by rewrite Hr3].
    by rewrite normalize_fecha_columns, (fill_nombre_columns _ _ _ _ H2). }
  by rewrite Hout.
Qed.

End FinalReport.

Lemma final_null_counts_witness :
  clean by_value Pandas2 true run_time joined_ex = Ok cleaned_ex
  ∧ null_counts cleaned_ex
    = [("cliente_id", 0); ("importe", 0); ("fecha_venta", 0); ("nombre_cliente", 0)]%nat
  ∧ ∀ n, ("importe"%string, n) ∈ null_counts cleaned_ex →
         n = 0%nat ∨ n = length (rows cleaned_ex).
Proof.
  assert (clean by_value Pandas2 true run_time joined_ex = Ok cleaned_ex) as H
    by (vm_compute; reflexivity).
  split; [exact H|]. split; [vm_compute; reflexivity|].
  exact (proj2 (proj2 (final_null_counts by_value Pandas2 true run_time joined_ex
                         cleaned_ex H) eq_refl)).
Defined.

Lemma no_sales_exported_witness :
  script by_value (mkWorld Pandas3 (Loaded (mkDF ventas_columns [])) (Loaded clientes_ex)
                         run_time true)
  = Exported (mkDF joined_columns []).
Proof.
  exact (no_sales_exported by_value
           (mkWorld Pandas3 (Loaded (mkDF ventas_columns [])) (Loaded clientes_ex)
              run_time true)
           (mkDF ventas_columns []) clientes_ex eq_refl eq_refl eq_refl
           ltac:(in_columns) ltac:(in_columns)).
Defined.

(** ** Runs on different days *)

Lemma sublist_filter_impl {A} (P Q : A → Prop)
    `{!∀ x, Decision (P x)} `{!∀ x, Decision (Q x)} (l : list A) :
  (∀ x, P x → Q x) → filter P l `sublist_of` filter Q l.
Proof.
  intros HPQ. induction l as [|x l IH]; [done|]. rewrite !filter_cons.
  destruct (decide (P x)) as [HP|HP].
  - rewrite decide_True by auto. by apply sublist_skip.
  - destruct (decide (Q x)); [by apply sublist_cons|done].
Qed.

Section Days.

Variable infer : list value → value → option Timestamp.

Lemma survives_later today1 today2 v :
  ts_leb today1 today2 = true →
  survives today1 v = true → survives today2 v = true.
Proof.
  intros Hle (t & -> & Hlo & Hhi)%survives_inv. cbn.
  pose proof (ts_leb_trans _ _ _ Hhi Hle) as Hhi2.
  unfold ts_geb in Hlo. unfold ts_leb in Hhi2. unfold ts_gtb. by rewrite Hlo, Hhi2.
Qed.

(** A later run keeps every row an earlier run kept, in the same order
    and with the same date: only rows dated after the earlier run can be
    new. *)
Theorem later_run_keeps_more today1 today2 df :
  ts_leb today1 today2 = true →
  rows (normalize_fecha infer today1 df)
    `sublist_of` rows (normalize_fecha infer today2 df).
Proof.
  intros Hle. destruct (decide ("fecha_venta" ∈ columns df)) as [Hc|Hc].
  2:{ by rewrite !normalize_fecha_absent. }
  rewrite !normalize_fecha_rows by done. unfold spec_normalize. cbn zeta.
  apply sublist_fmap_2, sublist_filter_impl. intros r. by apply survives_later.
Qed.

(** What one run exported, any later run leaves as it is: the dates of
    a normalised table are canonical and not after the run that wrote
    them. *)
Theorem normalize_fecha_stable today1 today2 df :
  ts_leb today1 today2 = true →
  normalize_fecha infer today2 (normalize_fecha infer today1 df)
  = normalize_fecha infer today1 df.
Proof.
  intros Hle. destruct (decide ("fecha_venta" ∈ columns df)) as [Hc|Hc].
  2:{ rewrite (normalize_fecha_absent infer today1 df Hc).
      by apply normalize_fecha_absent. }
  apply df_eq; [by rewrite !normalize_fecha_columns|].
  rewrite (normalize_fecha_rows infer today2 (normalize_fecha infer today1 df))
    by (by rewrite normalize_fecha_columns).
  apply spec_normalize_canonical. intros r' Hr'.
  destruct (normalize_fecha_elem infer today1 df r' Hc Hr')
    as (r & t & _ & -> & _ & Hv & Hlo & Hhi).
  pose proof (valid_tsb_inv _ Hv) as [_ Hn].
  exists t. rewrite lookup_insert_eq. repeat split; try done.
  - apply midnight_ge_min; [done|lia].
  - eapply ts_leb_trans; [apply midnight_le; lia|].
    by eapply ts_leb_trans.
Qed.

End Days.

Lemma later_run_keeps_more_witness :
  ts_leb run_time next_day = true
  ∧ rows (normalize_fecha by_value run_time joined_ex)
      `sublist_of` rows (normalize_fecha by_value next_day joined_ex).
Proof.
  assert (ts_leb run_time next_day = true) as H by reflexivity.
  split; [exact H|]. exact (later_run_keeps_more by_value run_time next_day joined_ex H).
Defined.

Lemma normalize_fecha_stable_witness :
  ts_leb run_time next_day = true
  ∧ normalize_fecha by_value next_day (normalize_fecha by_value run_time joined_ex)
    = normalize_fecha by_value run_time joined_ex.
Proof.
  assert (ts_leb run_time next_day = true) as H by reflexivity.
  split; [exact H|]. exact (normalize_fecha_stable by_value run_time next_day joined_ex H).
Defined.

(** ** Missing values before and after *)

Lemma null_count_filter c (rs : list row) :
  null_count (cell c <$> rs) = length (filter (λ r, isnull (cell c r) = true) rs).
Proof.
  unfold null_count. rewrite <-list_fmap_compose.
  apply (count_true_filter (isnull ∘ cell c)).
Qed.

Lemma Forall2_null_count c (l1 l2 : list row) :
  Forall2 (λ r r' : row, isnull (cell c r') = true → isnull (cell c r) = true) l1 l2 →
  (null_count (cell c <$> l2) ≤ null_count (cell c <$> l1))%nat.
Proof.
  rewrite !null_count_filter.
  induction 1 as [|r r' l1 l2 Hr _ IH]; [done|]. rewrite !filter_cons.
  destruct (decide (isnull (cell c r') = true)) as [Hn|Hn].
  - rewrite decide_True by auto. cbn. lia.
  - destruct (decide _); cbn; lia.
Qed.

Lemma stored_correct_null pd m v :
  isnull (stored pd (impute m) (neg_correct v)) = true → isnull v = true.
Proof.
  destruct v as [|q|x|t]; try done; [|by destruct pd..]. unfold neg_correct.
  destruct (negative (Num q)); by destruct pd.
Qed.

Section Nulls.

Variable infer : list value → value → option Timestamp.

Lemma normalize_fecha_null_count today df c :
  (null_count (series c (normalize_fecha infer today df)) ≤ null_count (series c df))%nat.
Proof.
  destruct (decide ("fecha_venta" ∈ columns df)) as [Hc|Hc].
  2:{ by rewrite normalize_fecha_absent. }
  unfold series. rewrite normalize_fecha_rows by done. unfold spec_normalize. cbn zeta.
  rewrite !null_count_filter, filter_fmap_comm, length_fmap, list_filter_filter.
  apply sublist_length, sublist_filter_impl. intros r [Hnull Hs]. cbn in Hnull.
  destruct (decide (c = "fecha_venta"%string)) as [->|Hne].
  - rewrite cell_insert in Hnull. apply survives_inv in Hs as (t & E & _).
    by rewrite E in Hnull.
  - by rewrite cell_insert_ne in Hnull.
Qed.

(** Column by column, the final report of missing values (line 109)
    never shows more than the report before the cleaning (line 35): no
    stage turns a value into a missing one. *)
Theorem nulls_never_increase pd text today df out c :
  clean infer pd text today df = Ok out →
  (null_count (series c out) ≤ null_count (series c df))%nat.
Proof.
  intros (df1 & df2 & H1 & H2 & ->)%clean_inv.
  etransitivity; [apply normalize_fecha_null_count|].
  assert (null_count (series c df2) ≤ null_count (series c df1))%nat as Hle.
  { apply Forall2_null_count.
    destruct (decide ("nombre_cliente" ∈ columns df1)) as [Hc|Hc].
    - eapply Forall2_impl; [apply (fill_nombre_updates _ _ _ _ Hc H2)|].
      intros r r' [E F]. unfold cell at 1.
      destruct (decide (c = "nombre_cliente"%string)) as [->|Hne].
      + fold (cell "nombre_cliente" r'). rewrite E.
        destruct pd; cbn; [|done]. by destruct (cell "nombre_cliente" r).
      + by rewrite F.
    - rewrite fill_nombre_absent in H2 by done. injection H2 as <-.
      by apply Forall_Forall2_diag, Forall_forall. }
  etransitivity; [exact Hle|]. apply Forall2_null_count.
  destruct (repair_importe_cases pd df) as [[_ E]|[(_ & _ & E)|(Hc & Hnum & _)]].
  - rewrite E in H1. injection H1 as <-. by apply Forall_Forall2_diag, Forall_forall.
  - congruence.
  - destruct (repair_importe_rows pd df Hc Hnum) as (df1' & H1' & _ & HF).
    rewrite H1 in H1'. injection H1' as <-.
    eapply Forall2_impl; [exact HF|]. intros r r' [E F]. unfold cell at 1.
    destruct (decide (c = "importe"%string)) as [->|Hne].
    + fold (cell "importe" r'). rewrite E. apply stored_correct_null.
    + by rewrite F.
Qed.

End Nulls.

Lemma nulls_never_increase_witness :
  clean by_value Pandas3 true run_time joined_ex = Ok cleaned_ex3
  ∧ null_count (series "nombre_cliente" joined_ex) = 3%nat
  ∧ (null_count (series "nombre_cliente" cleaned_ex3)
     ≤ null_count (series "nombre_cliente" joined_ex))%nat.
Proof.
  assert (clean by_value Pandas3 true run_time joined_ex = Ok cleaned_ex3) as H
    by (vm_compute; reflexivity).
  split; [exact H|]. split; [vm_compute; reflexivity|].
  exact (nulls_never_increase by_value Pandas3 true run_time joined_ex cleaned_ex3
           "nombre_cliente" H).
Defined.
